(** * ANP News API feeding service: a shallow embedding

    Source: [server/anp/io/feeding_services/anp_news_api.py], class
    [ANPNewsApiFeedingService].

    Modelling choices, all visible in the definitions below.

    - JSON scalars the code tests, compares, formats or uses as dictionary
      keys are [pyval]s (None, bool, int, str); floats are left out.  A key
      absent from a dictionary read with [.get] reads as [PNone], as in
      Python.
    - Python [str] is a [string] whose characters are the code points below
      256; [py_lower], [py_strip] and [py_split] follow [str.lower],
      [str.strip] and [str.split(',')] on them.
    - The upstream HTTP API is a record of four endpoints, each answering a
      request (URL and keyword arguments) with a document of its own schema,
      an error envelope, or a transport failure.  Within one run the answer
      is a function of the request.
    - [update] is the caller's dictionary, mutated in place: it is threaded
      as state and survives an exception.  [parsed_items] is a local list:
      it is threaded as state too and is dropped when [_update] raises.
    - The feed parser is a parameter, a function that may raise;
      [get_feed_parser] is not modelled.  The assignment
      [source['items'] = ...] only names the listing for the inner loop. *)

From Stdlib Require Import ZArith Ascii String List Bool Lia.
From stdpp Require Import base option list strings gmap pretty.

Open Scope string_scope.
Open Scope list_scope.

(** ** Python scalars *)

Inductive pyval : Type :=
| PNone
| PBool (b : bool)
| PInt (z : Z)
| PStr (s : string).

#[global] Instance pyval_eq_dec : EqDecision pyval.
Proof. solve_decision. Defined.

Definition pyval_to_sum (v : pyval) : unit + bool + Z + string :=
  match v with
  | PNone => inl (inl (inl tt))
  | PBool b => inl (inl (inr b))
  | PInt z => inl (inr z)
  | PStr s => inr s
  end.

Definition pyval_of_sum (x : unit + bool + Z + string) : pyval :=
  match x with
  | inl (inl (inl _)) => PNone
  | inl (inl (inr b)) => PBool b
  | inl (inr z) => PInt z
  | inr s => PStr s
  end.

#[global] Instance pyval_countable : Countable pyval.
Proof.
  apply (inj_countable' pyval_to_sum pyval_of_sum).
  intros []; reflexivity.
Defined.

(** [bool(v)]: None, False, 0 and the empty string are falsy. *)
Definition py_truthy (v : pyval) : bool :=
  match v with
  | PNone => false
  | PBool b => b
  | PInt z => negb (z =? 0)%Z
  | PStr s => negb (String.eqb s "")
  end.

(** [str(v)], as [str.format] renders a scalar with an empty format spec. *)
Definition py_str (v : pyval) : string :=
  match v with
  | PNone => "None"
  | PBool true => "True"
  | PBool false => "False"
  | PInt z => pretty z
  | PStr s => s
  end.

(** The key under which a dictionary files [v]: [True == 1] and
    [False == 0] hash and compare alike, every other scalar is its own key. *)
Definition py_hashkey (v : pyval) : pyval :=
  match v with
  | PBool b => PInt (Z.b2z b)
  | _ => v
  end.

(** [v in names] for a tuple of strings: only an equal [str] is a member. *)
Definition py_in_strs (v : pyval) (names : list string) : bool :=
  match v with
  | PStr s => bool_decide (s ∈ names)
  | _ => false
  end.

(** ** Python strings *)

Definition py_isspace (c : ascii) : bool :=
  let n := N_of_ascii c in
  ((9 <=? n) && (n <=? 13) || (28 <=? n) && (n <=? 32)
   || (n =? 133) || (n =? 160))%N.

Definition py_lower_char (c : ascii) : ascii :=
  let n := N_of_ascii c in
  if ((65 <=? n) && (n <=? 90)
      || (192 <=? n) && (n <=? 222) && negb (n =? 215))%N
  then ascii_of_N (n + 32)
  else c.

Fixpoint py_lower (s : string) : string :=
  match s with
  | EmptyString => EmptyString
  | String c s' => String (py_lower_char c) (py_lower s')
  end.

Fixpoint py_lstrip (s : string) : string :=
  match s with
  | EmptyString => EmptyString
  | String c s' => if py_isspace c then py_lstrip s' else s
  end.

Fixpoint py_rstrip (s : string) : string :=
  match s with
  | EmptyString => EmptyString
  | String c s' =>
      match py_rstrip s' with
      | EmptyString => if py_isspace c then EmptyString else String c EmptyString
      | r => String c r
      end
  end.

Definition py_strip (s : string) : string := py_rstrip (py_lstrip s).

(** [s.split(',')]: one piece more than there are commas, empty pieces kept. *)
Fixpoint py_split (s : string) : list string :=
  match s with
  | EmptyString => [EmptyString]
  | String c s' =>
      if Ascii.eqb c ","%char then EmptyString :: py_split s'
      else match py_split s' with
           | piece :: pieces => String c piece :: pieces
           | [] => [String c EmptyString]
           end
  end.

(** ** Documents of the upstream API *)

(** One entry of the source catalog; the code reads ['id'] and ['title']. *)
Record source : Type := Source {
  src_id : pyval;
  src_title : string
}.

(** One entry of a source's item listing; the code reads ['id'] and ['kind']. *)
Record item_ref : Type := ItemRef {
  item_id : pyval;
  item_kind : pyval
}.

(** The listing document [{'items': [...]}]. *)
Record items_doc : Type := ItemsDoc {
  items : list item_ref
}.

(** An item's detail document: ['id'], [.get('hasMedia')], the key
    ['media_link'] the code may set, and the fields it never looks at. *)
Record item_details : Type := ItemDetails {
  det_id : pyval;
  det_hasMedia : pyval;
  det_media_link : option string;
  det_fields : list (string * pyval)
}.

(** A media rendition, every field read with [.get]. *)
Record rendition : Type := Rendition {
  rend_id : pyval;
  rend_kind : pyval;
  rend_mimeType : pyval
}.

#[global] Instance source_eq_dec : EqDecision source.
Proof. solve_decision. Defined.
#[global] Instance item_ref_eq_dec : EqDecision item_ref.
Proof. solve_decision. Defined.
#[global] Instance item_details_eq_dec : EqDecision item_details.
Proof. solve_decision. Defined.
#[global] Instance rendition_eq_dec : EqDecision rendition.
Proof. solve_decision. Defined.

(** [item_details['media_link'] = media_link] *)
Definition set_media_link (d : item_details) (link : string) : item_details :=
  {| det_id := det_id d;
     det_hasMedia := det_hasMedia d;
     det_media_link := Some link;
     det_fields := det_fields d |}.

(** ** Transport *)

(** What [HTTPFeedingServiceBase.get_url] is called with: the URL and, when
    given, the query parameters ([params=...]). *)
Record request : Type := Request {
  req_url : string;
  req_params : option (list (string * pyval))
}.

(** What comes back.  [Failure]: the base class raised, or the body was not
    JSON.  [ErrorEnvelope c d]: a body whose ['hasError'] is truthy and whose
    ['data'] holds ['errorCode'] [c] and ['description'] [d].  [Payload a]: a
    body whose ['hasError'] is falsy and whose ['data'] is [a]. *)
Inductive response (A : Type) : Type :=
| Failure (reason : string)
| ErrorEnvelope (errorCode description : pyval)
| Payload (data : A).
Arguments Failure {A} reason.
Arguments ErrorEnvelope {A} errorCode description.
Arguments Payload {A} data.

Record upstream : Type := Upstream {
  sources_endpoint : request -> response (list source);
  items_endpoint : request -> response items_doc;
  details_endpoint : request -> response item_details;
  media_endpoint : request -> response (list rendition)
}.

(** ** Exceptions and results *)

(** [TransportError]: whatever the base class raises for a request that did
    not succeed.  [ApiGeneralError]: [IngestApiError.apiGeneralError], raised
    by [get_url] below.  [ParserError]: whatever the feed parser raises. *)
Inductive exn : Type :=
| TransportError (reason : string)
| ApiGeneralError (msg : string)
| ParserError (reason : string).

Inductive result (A : Type) : Type :=
| Raise (e : exn)
| Return (a : A).
Arguments Raise {A} e.
Arguments Return {A} a.

#[global] Instance result_ret : MRet result := fun _ a => Return a.
#[global] Instance result_bind : MBind result := fun _ _ f r =>
  match r with
  | Raise e => Raise e
  | Return a => f a
  end.

(** ** Class constants *)

Definition HTTP_SOURCES_URL : string :=
  "https://newsapi.anp.nl/services/sources".

Definition HTTP_ITEMS_URL (source_id : pyval) : string :=
  "https://newsapi.anp.nl/services/sources/" +:+ py_str source_id +:+ "/items".

Definition HTTP_ITEM_DETAILS_URL (source_id item_id : pyval) : string :=
  "https://newsapi.anp.nl/services/sources/" +:+ py_str source_id
  +:+ "/items/" +:+ py_str item_id.

Definition HTTP_ITEM_MEDIA_LIST_URL (source_id item_id : pyval) : string :=
  "https://newsapi.anp.nl/services/sources/" +:+ py_str source_id
  +:+ "/items/" +:+ py_str item_id +:+ "/media".

Definition HTTP_ITEM_MEDIA_DETAILS_URL (source_id item_id media_id : pyval) : string :=
  "https://newsapi.anp.nl/services/sources/" +:+ py_str source_id
  +:+ "/items/" +:+ py_str item_id +:+ "/media/" +:+ py_str media_id.

Definition ALLOWED_ITEM_KINDS : list string := ["TEXTARTICLE"].
Definition ALLOWED_MEDIA_KINDS : list string := ["imgMid"].
Definition ALLOWED_MEDIA_MIMETYPES : list string := ["image/jpeg"].

(** [self.config]: the provider's configuration, of which the service reads
    ['source_titles']. *)
Record config : Type := Config {
  source_titles : string
}.

(** ** The fetchers *)

(** The message [get_url] logs and raises with. *)
Definition error_message (url : string) (errorCode description : pyval) : string :=
  "Error in GET: '" +:+ url +:+ "'. ErrorCode: '" +:+ py_str errorCode
  +:+ "'. Description: '" +:+ py_str description +:+ "'".

Definition get_url {A : Type} (endpoint : request -> response A)
    (url : string) (params : option (list (string * pyval))) : result A :=
  match endpoint {| req_url := url; req_params := params |} with
  | Failure reason => Raise (TransportError reason)
  | ErrorEnvelope errorCode description =>
      Raise (ApiGeneralError (error_message url errorCode description))
  | Payload data => Return data
  end.

(** The titles of the configuration, as the comprehension normalises them
    (twice). *)
Definition configured_titles (cfg : config) : list string :=
  (fun title => py_strip (py_lower title)) <$>
    ((fun title_conf => py_strip (py_lower title_conf)) <$>
       py_split (source_titles cfg)).

Definition _fetch_sources (w : upstream) (cfg : config) : result (list source) :=
  sources ← get_url (sources_endpoint w) HTTP_SOURCES_URL None;
  mret (filter (fun src => py_lower (src_title src) ∈ configured_titles cfg) sources).

(** The keyword arguments of the listing request: [params] only for a truthy
    [to_item]. *)
Definition items_payload (to_item : pyval) : option (list (string * pyval)) :=
  if py_truthy to_item then Some [("toItem", to_item)] else None.

Definition _fetch_items (w : upstream) (source_id to_item : pyval)
    : result (list item_ref) :=
  doc ← get_url (items_endpoint w) (HTTP_ITEMS_URL source_id) (items_payload to_item);
  mret (reverse (items doc)).

(** The test of the rendition loop. *)
Definition is_allowed_rendition (rend : rendition) : bool :=
  py_in_strs (rend_kind rend) ALLOWED_MEDIA_KINDS
  && py_in_strs (rend_mimeType rend) ALLOWED_MEDIA_MIMETYPES.

(** The rendition at which the loop returns, if it does. *)
Fixpoint first_allowed_rendition (media_renditions : list rendition)
    : option rendition :=
  match media_renditions with
  | [] => None
  | rend :: rest =>
      if is_allowed_rendition rend then Some rend
      else first_allowed_rendition rest
  end.

Definition _fetch_media_link (w : upstream) (source_id item_id : pyval)
    : result (option string) :=
  media_renditions ←
    get_url (media_endpoint w) (HTTP_ITEM_MEDIA_LIST_URL source_id item_id) None;
  mret (match first_allowed_rendition media_renditions with
        | Some rend =>
            let media_id := rend_id rend in
            if py_truthy media_id
            then Some (HTTP_ITEM_MEDIA_DETAILS_URL source_id item_id media_id)
            else None
        | None => None
        end).

Definition _fetch_item_details (w : upstream) (source_id item_id : pyval)
    : result item_details :=
  item_details ←
    get_url (details_endpoint w) (HTTP_ITEM_DETAILS_URL source_id item_id) None;
  if py_truthy (det_hasMedia item_details) then
    media_link ← _fetch_media_link w source_id item_id;
    match media_link with
    | Some link =>
        if negb (String.eqb link "")
        then mret (set_media_link item_details link)
        else mret item_details
    | None => mret item_details
    end
  else mret item_details.

(** ** The provider and the update dictionaries *)

(** [{'title': ..., 'last_item_id': ...}], the checkpoint of one source. *)
Record source_entry : Type := SourceEntry {
  entry_title : string;
  entry_last_item_id : pyval
}.

(** The ['private'] dictionary, of which the code touches ['sources']. *)
Record private_doc : Type := PrivateDoc {
  priv_sources : option (gmap pyval source_entry)
}.

(** A provider or an update dictionary, of which the code touches
    ['private']. *)
Record provider_doc : Type := ProviderDoc {
  doc_private : option private_doc
}.

#[global] Instance source_entry_eq_dec : EqDecision source_entry.
Proof. solve_decision. Defined.
#[global] Instance private_doc_eq_dec : EqDecision private_doc.
Proof. solve_decision. Defined.
#[global] Instance provider_doc_eq_dec : EqDecision provider_doc.
Proof. solve_decision. Defined.

(** [doc.get('private', {}).get('sources', {})] *)
Definition doc_sources (doc : provider_doc) : gmap pyval source_entry :=
  match doc_private doc with
  | Some priv => default ∅ (priv_sources priv)
  | None => ∅
  end.

(** [provider.get('private', {}).get('sources', {}).get(source_id, {})
      .get('last_item_id')] *)
Definition stored_last_item_id (provider : provider_doc) (source_id : pyval) : pyval :=
  match doc_sources provider !! py_hashkey source_id with
  | Some entry => entry_last_item_id entry
  | None => PNone
  end.

(** [update.setdefault('private', {}).setdefault('sources', {})[source_id]
      = entry] *)
Definition write_checkpoint (update : provider_doc) (source_id : pyval)
    (entry : source_entry) : provider_doc :=
  {| doc_private :=
       Some {| priv_sources :=
                 Some (<[py_hashkey source_id := entry]> (doc_sources update)) |} |}.

(** ** The state of a run *)

Record frame (parsed : Type) : Type := Frame {
  fr_update : provider_doc;
  fr_parsed_items : list parsed
}.
Arguments Frame {parsed} fr_update fr_parsed_items.
Arguments fr_update {parsed} f.
Arguments fr_parsed_items {parsed} f.

(** A statement of [_update]: it may raise, and either way leaves a frame. *)
Definition M (parsed A : Type) : Type := frame parsed -> result A * frame parsed.

#[global] Instance M_ret {parsed} : MRet (M parsed) :=
  fun _ a fr => (Return a, fr).
#[global] Instance M_bind {parsed} : MBind (M parsed) :=
  fun _ _ f m fr =>
    match m fr with
    | (Raise e, fr') => (Raise e, fr')
    | (Return a, fr') => f a fr'
    end.

(** A call that does not touch the frame. *)
Definition call {parsed A} (r : result A) : M parsed A := fun fr => (r, fr).

(** [for x in l: body(x)] *)
Fixpoint for_each {parsed A} (l : list A) (body : A -> M parsed unit) : M parsed unit :=
  match l with
  | [] => mret tt
  | x :: rest => body x ≫= fun _ => for_each rest body
  end.

Definition set_checkpoint {parsed} (src : source) (item_details : item_details)
    : M parsed unit :=
  fun fr =>
    (Return tt,
     {| fr_update :=
          write_checkpoint (fr_update fr) (src_id src)
            {| entry_title := src_title src;
               entry_last_item_id := det_id item_details |};
        fr_parsed_items := fr_parsed_items fr |}).

Definition append_parsed {parsed} (p : parsed) : M parsed unit :=
  fun fr =>
    (Return tt,
     {| fr_update := fr_update fr;
        fr_parsed_items := fr_parsed_items fr ++ [p] |}).

Definition is_allowed_item (i : item_ref) : bool :=
  py_in_strs (item_kind i) ALLOWED_ITEM_KINDS.

Section Update.
Context {parsed : Type}.
(** [parser.parse(article=item_details, provider=provider)] *)
Variable parse : item_details -> provider_doc -> result parsed.
Variable w : upstream.
Variable cfg : config.

(** The body of the inner loop, for one allowed item of [src]. *)
Definition process_item (provider : provider_doc) (src : source) (item : item_ref)
    : M parsed unit :=
  item_details ← call (_fetch_item_details w (src_id src) (item_id item));
  _ ← set_checkpoint src item_details;
  p ← call (parse item_details provider);
  append_parsed p.

(** The body of the outer loop, for one source. *)
Definition process_source (provider : provider_doc) (src : source) : M parsed unit :=
  source_items ← call (_fetch_items w (src_id src)
                         (stored_last_item_id provider (src_id src)));
  for_each (List.filter is_allowed_item source_items) (process_item provider src).

Definition _update_body (provider : provider_doc) : M parsed unit :=
  sources ← call (_fetch_sources w cfg);
  for_each sources (process_source provider).

(** [_update(provider, update)]: what it returns or raises, and [update]
    as the call leaves it. *)
Definition _update (provider update : provider_doc)
    : result (list (list parsed)) * provider_doc :=
  let '(r, fr) := _update_body provider
                    {| fr_update := update; fr_parsed_items := [] |} in
  (match r with
   | Raise e => Raise e
   | Return _ => Return [fr_parsed_items fr]
   end,
   fr_update fr).
End Update.

(** ** A run, read as a fold

    [run_progress] lists what a run gets through before it ends or before
    its first exception: the details resolved (each with its source, in
    order), the parsed items appended to [parsed_items], and the exception
    that stopped it, if any.  [apply_checkpoints] replays the checkpoint
    writes of the resolved details.  [_update_run_progress] below shows that
    [_update] is exactly this fold. *)

Record progress (parsed : Type) : Type := Progress {
  resolved : list (source * item_details);
  delivered : list parsed;
  stopped : option exn
}.
Arguments Progress {parsed} resolved delivered stopped.
Arguments resolved {parsed} p.
Arguments delivered {parsed} p.
Arguments stopped {parsed} p.

Definition checkpoint_of (src : source) (d : item_details) : source_entry :=
  {| entry_title := src_title src; entry_last_item_id := det_id d |}.

Definition apply_checkpoints (tr : list (source * item_details))
    (update : provider_doc) : provider_doc :=
  fold_left (fun u sd => write_checkpoint u (src_id sd.1) (checkpoint_of sd.1 sd.2))
    tr update.

(** The resolved details filed under key [k]. *)
Definition filed_under (k : pyval) (tr : list (source * item_details))
    : list (source * item_details) :=
  filter (fun sd => py_hashkey (src_id sd.1) = k) tr.

Section Progress.
Context {parsed : Type}.
Variable parse : item_details -> provider_doc -> result parsed.
Variable w : upstream.
Variable cfg : config.

Fixpoint resolve_items (provider : provider_doc) (src : source)
    (allowed : list item_ref) : progress parsed :=
  match allowed with
  | [] => Progress [] [] None
  | item :: rest =>
      match _fetch_item_details w (src_id src) (item_id item) with
      | Raise e => Progress [] [] (Some e)
      | Return d =>
          match parse d provider with
          | Raise e => Progress [(src, d)] [] (Some e)
          | Return p =>
              let r := resolve_items provider src rest in
              Progress ((src, d) :: resolved r) (p :: delivered r) (stopped r)
          end
      end
  end.

Fixpoint resolve_sources (provider : provider_doc) (sources : list source)
    : progress parsed :=
  match sources with
  | [] => Progress [] [] None
  | src :: rest =>
      match _fetch_items w (src_id src) (stored_last_item_id provider (src_id src)) with
      | Raise e => Progress [] [] (Some e)
      | Return listing =>
          let r := resolve_items provider src (List.filter is_allowed_item listing) in
          match stopped r with
          | Some e => r
          | None =>
              let r' := resolve_sources provider rest in
              Progress (resolved r ++ resolved r') (delivered r ++ delivered r')
                (stopped r')
          end
      end
  end.

Definition run_progress (provider : provider_doc) : progress parsed :=
  match _fetch_sources w cfg with
  | Raise e => Progress [] [] (Some e)
  | Return sources => resolve_sources provider sources
  end.

(** The frame a run leaves, and whether it raised, from its progress. *)
Definition after (r : progress parsed) (fr : frame parsed)
    : result unit * frame parsed :=
  (match stopped r with Some e => Raise e | None => Return tt end,
   {| fr_update := apply_checkpoints (resolved r) (fr_update fr);
      fr_parsed_items := fr_parsed_items fr ++ delivered r |}).
End Progress.

(** * The specification's wording, and concrete upstreams *)

(** ** The specification, word for word

    Definitions that follow the specification's sentences rather than the
    code, to be compared with the code's behaviour. *)

(** The source filter as specified: both sides lower-cased and trimmed. *)
Definition spec_source_filter (allSources : list source) (allowedTitles : list string)
    : list source :=
  filter (fun src => py_strip (py_lower (src_title src))
                     ∈ (fun t => py_strip (py_lower t)) <$> allowedTitles)
    allSources.

(** The media resolver as specified: the first allowed rendition gives a
    link whenever it has an id. *)
Definition spec_media_link (source_id item_id : pyval) (renditions : list rendition)
    : option string :=
  match first_allowed_rendition renditions with
  | Some rend =>
      match rend_id rend with
      | PNone => None
      | media_id => Some (HTTP_ITEM_MEDIA_DETAILS_URL source_id item_id media_id)
      end
  | None => None
  end.

(** [needle] occurs in [hay]. *)
Definition occurs_in (needle hay : string) : Prop :=
  exists before after, hay = before +:+ needle +:+ after.

(** ** Concrete upstreams *)

Module Scenario.

(** A parser that hands the article back. *)
Definition parse_article (article : item_details) (provider : provider_doc)
    : result item_details :=
  Return article.

(** A detail document with no media. *)
Definition article (n : Z) : item_details :=
  {| det_id := PInt n; det_hasMedia := PBool false;
     det_media_link := None; det_fields := [] |}.

(** An upstream with one catalog, one listing for every source, and the
    given answers to the detail requests of source [1]; every other detail
    request fails. *)
Definition upstream_of (catalog : list source) (listing : list item_ref)
    (details : list (Z * response item_details)) (renditions : list rendition)
    : upstream :=
  {| sources_endpoint := fun _ => Payload catalog;
     items_endpoint := fun _ => Payload {| items := listing |};
     details_endpoint := fun r =>
       match List.find (fun nd => String.eqb (req_url r)
                                    (HTTP_ITEM_DETAILS_URL (PInt 1) (PInt nd.1)))
               details with
       | Some nd => nd.2
       | None => Failure "not found"
       end;
     media_endpoint := fun _ => Payload renditions |}.

Definition anp_101 : source := {| src_id := PInt 1; src_title := "ANP 101" |}.

Definition cfg : config := {| source_titles := "AFN, ANP 101, Medianet BIN" |}.

(** The stored checkpoint [last_item_id = 100] of source [1]. *)
Definition provider_at_100 : provider_doc :=
  {| doc_private :=
       Some {| priv_sources :=
                 Some {[ PInt 1 := {| entry_title := "ANP 101";
                                      entry_last_item_id := PInt 100 |} ]} |} |}.

(** The update dictionary as the caller hands it over: no ['private'] yet. *)
Definition fresh_update : provider_doc := {| doc_private := None |}.

(** The upstream listing, newest first: 103, 102 (a photo), 101. *)
Definition listing_103_102_101 : list item_ref :=
  [ {| item_id := PInt 103; item_kind := PStr "TEXTARTICLE" |};
    {| item_id := PInt 102; item_kind := PStr "PHOTO" |};
    {| item_id := PInt 101; item_kind := PStr "TEXTARTICLE" |} ].

(** The end-to-end scenario: details exist for 101 and 103 only, so a
    detail request for 102 would fail the run. *)
Definition end_to_end : upstream :=
  upstream_of [anp_101] listing_103_102_101
    [(101%Z, Payload (article 101)); (103%Z, Payload (article 103))] [].

(** As [end_to_end], but the detail request for 103 is answered with the
    error envelope [E1] / [boom]. *)
Definition fails_at_103 : upstream :=
  upstream_of [anp_101] listing_103_102_101
    [(101%Z, Payload (article 101));
     (103%Z, ErrorEnvelope (PStr "E1") (PStr "boom"))] [].

(** An upstream that lists item 50 although the cursor sent is 100. *)
Definition lists_older_item : upstream :=
  upstream_of [anp_101] [ {| item_id := PInt 50; item_kind := PStr "TEXTARTICLE" |} ]
    [(50%Z, Payload (article 50))] [].

(** Nothing new: every listing is empty. *)
Definition nothing_new : upstream := upstream_of [anp_101] [] [] [].

(** A catalog whose title carries a trailing blank. *)
Definition untrimmed_catalog : list source :=
  [ {| src_id := PInt 1; src_title := "ANP 101 " |} ].

Definition untrimmed_upstream : upstream := upstream_of untrimmed_catalog [] [] [].

(** An allowed rendition whose id is the number 0. *)
Definition rendition_zero_id : rendition :=
  {| rend_id := PInt 0; rend_kind := PStr "imgMid"; rend_mimeType := PStr "image/jpeg" |}.

(** The renditions of the specification's example: a small image with no
    mime type and no id, then a mid-size JPEG with id 42. *)
Definition example_renditions : list rendition :=
  [ {| rend_id := PNone; rend_kind := PStr "imgSmall"; rend_mimeType := PNone |};
    {| rend_id := PInt 42; rend_kind := PStr "imgMid"; rend_mimeType := PStr "image/jpeg" |} ].

Definition media_upstream (renditions : list rendition) : upstream :=
  upstream_of [anp_101] [] [] renditions.

(** An article flagged as having media, and an upstream serving it as item
    7 of source 1. *)
Definition article_with_media (n : Z) : item_details :=
  {| det_id := PInt n; det_hasMedia := PBool true;
     det_media_link := None; det_fields := [] |}.

Definition item_7 (details : item_details) (renditions : list rendition) : upstream :=
  upstream_of [anp_101] [] [(7%Z, Payload details)] renditions.

End Scenario.

(** * Further definitions

    Measures and work lists used to state what the fetchers and a run do
    beyond the claims, and two more concrete upstreams. *)

(** A comma occurs in [s]. *)
Fixpoint has_comma (s : string) : bool :=
  match s with
  | EmptyString => false
  | String c s' => Ascii.eqb c ","%char || has_comma s'
  end.

(** The number of commas of [s]. *)
Fixpoint count_commas (s : string) : nat :=
  match s with
  | EmptyString => O
  | String c s' => (if Ascii.eqb c ","%char then 1 else 0) + count_commas s'
  end.

(** The allowed items a run has to resolve for [src], oldest first: those of
    the listing [_fetch_items] returns for the stored cursor (none when the
    listing fetch raises). *)
Definition allowed_items_of (w : upstream) (provider : provider_doc) (src : source)
    : list item_ref :=
  match _fetch_items w (src_id src) (stored_last_item_id provider (src_id src)) with
  | Raise _ => []
  | Return listing => List.filter is_allowed_item listing
  end.

(** The work of a run over [sources]: each source, in order, with each of its
    allowed items, oldest first. *)
Definition work_list (w : upstream) (provider : provider_doc) (sources : list source)
    : list (source * item_ref) :=
  src ← sources; (fun item => (src, item)) <$> allowed_items_of w provider src.

(** The last resolved detail was not delivered: the parser raised on it. *)
Definition one_ahead {parsed : Type}
    (parse : item_details -> provider_doc -> result parsed)
    (provider : provider_doc) (r : progress parsed) : Prop :=
  length (resolved r) = S (length (delivered r))
  /\ exists sd e, last (resolved r) = Some sd
                  /\ parse sd.2 provider = Raise e
                  /\ stopped r = Some e.

Module Edge.

(** A parser that rejects the article whose id is [n] and hands any other
    article back. *)
Definition parse_rejecting (n : Z) (article : item_details) (provider : provider_doc)
    : result item_details :=
  if decide (det_id article = PInt n) then Raise (ParserError "rejected")
  else Return article.

(** An upstream whose catalog lists one wanted source and whose listing
    holds photos only. *)
Definition photos_only : upstream :=
  Scenario.upstream_of [Scenario.anp_101]
    [ {| item_id := PInt 105; item_kind := PStr "PHOTO" |};
      {| item_id := PInt 104; item_kind := PStr "PHOTO" |} ] [] [].

(** A catalog with a title in capitals, one with a comma and one unwanted. *)
Definition mixed_catalog : list source :=
  [ {| src_id := PInt 1; src_title := "ANP 101" |};
    {| src_id := PInt 2; src_title := "AFN, ANP" |};
    {| src_id := PInt 3; src_title := "Reuters" |} ].

Definition mixed_upstream : upstream := Scenario.upstream_of mixed_catalog [] [] [].

End Edge.
(** * Facts *)

(** Open one step of a statement of [_update]: its binds and calls. *)
Ltac run_M := unfold mbind, M_bind, call.

(** ** The string functions on examples *)

Example py_split_ex :
  py_split "AFN, ANP 101, Medianet BIN" = ["AFN"; " ANP 101"; " Medianet BIN"].
Proof. reflexivity. Qed.

Example py_strip_ex : py_strip "  ANP 101 " = "ANP 101".
Proof. reflexivity. Qed.

Example py_lower_ex : py_lower "Medianet BIN" = "medianet bin".
Proof. reflexivity. Qed.

Example py_split_empty_pieces : py_split ",a,," = [""; "a"; ""; ""].
Proof. reflexivity. Qed.

Example py_split_no_comma : py_split "" = [""] /\ py_split "AFN" = ["AFN"].
Proof. split; reflexivity. Qed.

Example py_strip_inner_blanks_stay :
  py_strip (String "009" (String "010" " a  b ")) = "a  b" /\ py_strip "   " = "".
Proof. split; reflexivity. Qed.

Example py_truthy_ex :
  py_truthy (PInt 0) = false /\ py_truthy (PStr "") = false
  /\ py_truthy (PStr "0") = true /\ py_truthy (PInt (-1)) = true.
Proof. repeat split. Qed.

Example py_str_ex : py_str (PInt 42) = "42" /\ py_str (PInt (-7)) = "-7".
Proof. split; reflexivity. Qed.

(** ** Facts about the string functions *)

Lemma py_isspace_lower_char c : py_isspace (py_lower_char c) = py_isspace c.
Proof. by destruct c as [[] [] [] [] [] [] [] []]. Qed.

Lemma py_lower_char_idem c : py_lower_char (py_lower_char c) = py_lower_char c.
Proof. by destruct c as [[] [] [] [] [] [] [] []]. Qed.

Lemma py_lower_idem s : py_lower (py_lower s) = py_lower s.
Proof. induction s as [|c s IH]; simpl; [done|]. by rewrite py_lower_char_idem, IH. Qed.

Lemma py_lower_lstrip s : py_lower (py_lstrip s) = py_lstrip (py_lower s).
Proof.
  induction s as [|c s IH]; simpl; [done|].
  rewrite py_isspace_lower_char. by destruct (py_isspace c).
Qed.

Lemma py_lower_rstrip s : py_lower (py_rstrip s) = py_rstrip (py_lower s).
Proof.
  induction s as [|c s IH]; simpl; [done|].
  rewrite <- IH, py_isspace_lower_char.
  destruct (py_rstrip s); simpl; [|done]. by destruct (py_isspace c).
Qed.

Lemma py_lower_strip s : py_lower (py_strip s) = py_strip (py_lower s).
Proof. unfold py_strip. by rewrite py_lower_rstrip, py_lower_lstrip. Qed.

Lemma py_rstrip_idem s : py_rstrip (py_rstrip s) = py_rstrip s.
Proof.
  induction s as [|c s IH]; simpl; [done|].
  destruct (py_rstrip s) as [|c' r] eqn:Hr.
  - destruct (py_isspace c) eqn:Hc; simpl; [done|]. by rewrite Hc.
  - change (py_rstrip (String c (String c' r))) with
      (match py_rstrip (String c' r) with
       | EmptyString => if py_isspace c then EmptyString else String c EmptyString
       | r0 => String c r0 end).
    by rewrite IH.
Qed.

(** A string that does not start with white space keeps its head through
    [py_rstrip]. *)
Lemma py_lstrip_rstrip s : py_lstrip s = s -> py_lstrip (py_rstrip s) = py_rstrip s.
Proof.
  destruct s as [|c s]; simpl; [done|].
  destruct (py_isspace c) eqn:Hc.
  - intros H. exfalso.
    assert (String.length (py_lstrip s) <= String.length s) as Hle.
    { clear. induction s as [|c s IH]; simpl; [lia|]. destruct (py_isspace c); simpl; lia. }
    rewrite H in Hle. simpl in Hle. lia.
  - intros _. destruct (py_rstrip s); simpl; by rewrite Hc.
Qed.

Lemma py_lstrip_idem s : py_lstrip (py_lstrip s) = py_lstrip s.
Proof.
  induction s as [|c s IH]; simpl; [done|].
  destruct (py_isspace c) eqn:Hc; [done|]. simpl. by rewrite Hc.
Qed.

Lemma py_strip_idem s : py_strip (py_strip s) = py_strip s.
Proof.
  unfold py_strip. rewrite py_lstrip_rstrip by apply py_lstrip_idem.
  apply py_rstrip_idem.
Qed.

Lemma configured_titles_once cfg :
  configured_titles cfg = (fun t => py_strip (py_lower t)) <$> py_split (source_titles cfg).
Proof.
  unfold configured_titles. rewrite <- list_fmap_compose.
  apply list_fmap_ext. intros _ t _. simpl.
  by rewrite py_lower_strip, py_lower_idem, py_strip_idem.
Qed.

(** ** The rendition scan *)

Lemma first_allowed_rendition_found pre rend post :
  Forall (fun r => is_allowed_rendition r = false) pre ->
  is_allowed_rendition rend = true ->
  first_allowed_rendition (pre ++ rend :: post) = Some rend.
Proof.
  intros Hpre Hrend. induction Hpre as [|r pre Hr _ IH]; simpl.
  - by rewrite Hrend.
  - by rewrite Hr.
Qed.

Lemma first_allowed_rendition_none renditions :
  Forall (fun r => is_allowed_rendition r = false) renditions ->
  first_allowed_rendition renditions = None.
Proof. induction 1 as [|r l Hr _ IH]; simpl; [done|]. by rewrite Hr. Qed.

Lemma py_in_strs_singleton v name :
  py_in_strs v [name] = true <-> v = PStr name.
Proof.
  destruct v as [| | |s]; simpl; try (split; [done|congruence]).
  rewrite bool_decide_eq_true, list_elem_of_singleton. split; congruence.
Qed.

Lemma is_allowed_rendition_spec rend :
  is_allowed_rendition rend = true
  <-> rend_kind rend = PStr "imgMid" /\ rend_mimeType rend = PStr "image/jpeg".
Proof.
  unfold is_allowed_rendition, ALLOWED_MEDIA_KINDS, ALLOWED_MEDIA_MIMETYPES.
  by rewrite andb_true_iff, !py_in_strs_singleton.
Qed.

Lemma is_allowed_item_spec item :
  is_allowed_item item = true <-> item_kind item = PStr "TEXTARTICLE".
Proof. apply py_in_strs_singleton. Qed.

(** ** Loops that raise *)

Lemma for_each_app {parsed A} (l1 l2 : list A) (body : A -> M parsed unit) fr :
  for_each (l1 ++ l2) body fr
  = match for_each l1 body fr with
    | (Raise e, fr') => (Raise e, fr')
    | (Return _, fr') => for_each l2 body fr'
    end.
Proof.
  revert fr. induction l1 as [|x l1 IH]; intros fr; simpl; [done|].
  unfold mbind, M_bind. destruct (body x fr) as [[e|[]] fr']; [done|]. apply IH.
Qed.

(** Once the body raises, the loop stops there: the rest is not run. *)
Lemma for_each_raise {parsed A} (pre post : list A) (x : A)
    (body : A -> M parsed unit) fr fr1 fr2 e :
  for_each pre body fr = (Return tt, fr1) ->
  body x fr1 = (Raise e, fr2) ->
  for_each (pre ++ x :: post) body fr = (Raise e, fr2).
Proof.
  intros Hpre Hx. rewrite for_each_app, Hpre. simpl.
  unfold mbind, M_bind. by rewrite Hx.
Qed.

(** ** What the checkpoint writes leave *)

Lemma doc_sources_write_checkpoint update source_id entry :
  doc_sources (write_checkpoint update source_id entry)
  = <[py_hashkey source_id := entry]> (doc_sources update).
Proof. reflexivity. Qed.

Lemma apply_checkpoints_nil update : apply_checkpoints [] update = update.
Proof. reflexivity. Qed.

Lemma apply_checkpoints_cons sd tr update :
  apply_checkpoints (sd :: tr) update
  = apply_checkpoints tr (write_checkpoint update (src_id sd.1) (checkpoint_of sd.1 sd.2)).
Proof. reflexivity. Qed.

Lemma apply_checkpoints_snoc tr sd update :
  apply_checkpoints (tr ++ [sd]) update
  = write_checkpoint (apply_checkpoints tr update) (src_id sd.1) (checkpoint_of sd.1 sd.2).
Proof. unfold apply_checkpoints. by rewrite fold_left_app. Qed.

(** Under every key, the entry is that of the last detail resolved for the
    key, or the entry the update came with. *)
Lemma apply_checkpoints_lookup tr update k :
  doc_sources (apply_checkpoints tr update) !! k
  = match last (filed_under k tr) with
    | Some sd => Some (checkpoint_of sd.1 sd.2)
    | None => doc_sources update !! k
    end.
Proof.
  induction tr as [|sd tr IH] using rev_ind; [done|].
  rewrite apply_checkpoints_snoc, doc_sources_write_checkpoint.
  unfold filed_under in *. rewrite filter_app, filter_cons, filter_nil.
  destruct (decide (py_hashkey (src_id sd.1) = k)) as [<-|Hne].
  - by rewrite last_snoc, lookup_insert_eq.
  - rewrite app_nil_r, lookup_insert_ne by done. apply IH.
Qed.

(** ** A run is its fold *)

Section ProgressFacts.
Context {parsed : Type}.
Variable parse : item_details -> provider_doc -> result parsed.
Variable w : upstream.
Variable cfg : config.

Lemma after_nothing (fr : frame parsed) :
  after (Progress [] [] None) fr = (Return tt, fr).
Proof. destruct fr; unfold after; simpl. by rewrite app_nil_r. Qed.

Lemma after_raise_at_once (e : exn) (fr : frame parsed) :
  after (Progress [] [] (Some e)) fr = (Raise e, fr).
Proof. destruct fr; unfold after; simpl. by rewrite app_nil_r. Qed.

Lemma apply_checkpoints_app tr1 tr2 u :
  apply_checkpoints (tr1 ++ tr2) u = apply_checkpoints tr2 (apply_checkpoints tr1 u).
Proof. unfold apply_checkpoints. apply fold_left_app. Qed.

Lemma for_each_process_item provider src allowed fr :
  for_each allowed (process_item parse w provider src) fr
  = after (resolve_items parse w provider src allowed) fr.
Proof.
  revert fr. induction allowed as [|item rest IH]; intros fr; simpl.
  - by rewrite after_nothing.
  - unfold mbind, M_bind, process_item, call, mbind, M_bind. simpl.
    destruct (_fetch_item_details w (src_id src) (item_id item)) as [e|d].
    + by rewrite after_raise_at_once.
    + simpl. destruct (parse d provider) as [e|p]; simpl.
      * destruct fr; unfold after; simpl. by rewrite app_nil_r.
      * rewrite IH. unfold after; simpl. by rewrite <- app_assoc.
Qed.

Lemma process_source_progress provider src fr :
  process_source parse w provider src fr
  = match _fetch_items w (src_id src) (stored_last_item_id provider (src_id src)) with
    | Raise e => (Raise e, fr)
    | Return listing =>
        after (resolve_items parse w provider src (List.filter is_allowed_item listing)) fr
    end.
Proof.
  unfold process_source; run_M.
  destruct (_fetch_items _ _ _); [done|]. apply for_each_process_item.
Qed.

Lemma for_each_process_source provider sources fr :
  for_each sources (process_source parse w provider) fr
  = after (resolve_sources parse w provider sources) fr.
Proof.
  revert fr. induction sources as [|src rest IH]; intros fr; simpl.
  - by rewrite after_nothing.
  - unfold mbind, M_bind. rewrite process_source_progress.
    destruct (_fetch_items _ _ _) as [e|listing].
    + by rewrite after_raise_at_once.
    + set (r := resolve_items parse w provider src _).
      unfold after at 1. destruct (stopped r) as [e|] eqn:Hr.
      * unfold after. by rewrite Hr.
      * rewrite IH. unfold after; simpl.
        by rewrite apply_checkpoints_app, app_assoc.
Qed.

Lemma _update_body_progress provider fr :
  _update_body parse w cfg provider fr = after (run_progress parse w cfg provider) fr.
Proof.
  unfold _update_body, run_progress; run_M.
  destruct (_fetch_sources w cfg) as [e|sources].
  - by rewrite after_raise_at_once.
  - apply for_each_process_source.
Qed.

(** [_update] raises the exception that stopped the run, or returns the
    delivered items in a one-element list; either way [update] has
    received the checkpoint of every resolved detail. *)
Lemma _update_run_progress provider update :
  _update parse w cfg provider update
  = (match stopped (run_progress parse w cfg provider) with
     | Some e => Raise e
     | None => Return [delivered (run_progress parse w cfg provider)]
     end,
     apply_checkpoints (resolved (run_progress parse w cfg provider)) update).
Proof.
  unfold _update. rewrite _update_body_progress. unfold after; simpl.
  by destruct (stopped _).
Qed.
End ProgressFacts.

(** ** Where resolved details come from *)

Section ResolvedFacts.
Context {parsed : Type}.
Variable parse : item_details -> provider_doc -> result parsed.
Variable w : upstream.
Variable cfg : config.

Lemma resolve_items_resolved provider src allowed s d :
  (s, d) ∈ resolved (resolve_items parse w provider src allowed) ->
  s = src /\
  exists item, item ∈ allowed
               /\ _fetch_item_details w (src_id src) (item_id item) = Return d.
Proof.
  induction allowed as [|item rest IH]; simpl; [by intros ?%elem_of_nil|].
  destruct (_fetch_item_details w (src_id src) (item_id item)) as [e|d'] eqn:Hd;
    simpl; [by intros ?%elem_of_nil|].
  destruct (parse d' provider) as [e|p]; simpl.
  - intros [=-> ->]%list_elem_of_singleton. split; [done|].
    exists item. split; [left|done].
  - intros [[=-> ->]|Hin]%elem_of_cons.
    + split; [done|]. exists item. split; [left|done].
    + destruct (IH Hin) as [-> (item' & Hitem' & Hd')].
      split; [done|]. exists item'. split; [by right|done].
Qed.

Lemma resolve_sources_resolved provider sources s d :
  (s, d) ∈ resolved (resolve_sources parse w provider sources) ->
  s ∈ sources /\
  exists listing item,
    _fetch_items w (src_id s) (stored_last_item_id provider (src_id s)) = Return listing
    /\ item ∈ listing
    /\ is_allowed_item item = true
    /\ _fetch_item_details w (src_id s) (item_id item) = Return d.
Proof.
  induction sources as [|src rest IH]; simpl; [by intros ?%elem_of_nil|].
  destruct (_fetch_items w (src_id src) _) as [e|listing] eqn:Hl;
    simpl; [by intros ?%elem_of_nil|].
  set (r := resolve_items parse w provider src _).
  assert ((s, d) ∈ resolved r ->
          s ∈ src :: rest /\
          exists listing item,
            _fetch_items w (src_id s) (stored_last_item_id provider (src_id s))
              = Return listing
            /\ item ∈ listing /\ is_allowed_item item = true
            /\ _fetch_item_details w (src_id s) (item_id item) = Return d) as Hhere.
  { intros Hin. apply resolve_items_resolved in Hin as [-> (item & Hitem & Hd)].
    split; [left|]. exists listing, item.
    apply list_elem_of_In, filter_In in Hitem as [Hitem Hallowed].
    by rewrite list_elem_of_In. }
  destruct (stopped r); [done|]. simpl.
  intros [Hin|Hin]%elem_of_app; [by apply Hhere|].
  destruct (IH Hin) as [Hs Hrest]. split; [by right|done].
Qed.

Lemma run_progress_resolved provider s d :
  (s, d) ∈ resolved (run_progress parse w cfg provider) ->
  exists sources listing item,
    _fetch_sources w cfg = Return sources
    /\ s ∈ sources
    /\ _fetch_items w (src_id s) (stored_last_item_id provider (src_id s)) = Return listing
    /\ item ∈ listing
    /\ is_allowed_item item = true
    /\ _fetch_item_details w (src_id s) (item_id item) = Return d.
Proof.
  unfold run_progress.
  destruct (_fetch_sources w cfg) as [e|sources]; simpl; [by intros ?%elem_of_nil|].
  intros [Hs (listing & item & H)]%resolve_sources_resolved.
  by exists sources, listing, item.
Qed.

(** Sources whose listings hold no allowed item leave no progress at all. *)
Lemma resolve_sources_nothing_allowed provider sources :
  (forall src, src ∈ sources ->
     exists listing,
       _fetch_items w (src_id src) (stored_last_item_id provider (src_id src))
         = Return listing
       /\ List.filter is_allowed_item listing = []) ->
  resolve_sources parse w provider sources = Progress [] [] None.
Proof.
  induction sources as [|src rest IH]; intros H; simpl; [done|].
  destruct (H src) as (listing & -> & ->); [left|]. simpl.
  rewrite IH; [done|]. intros src' Hin. apply H. by right.
Qed.
End ResolvedFacts.

(** ** Where a run can raise *)

Section RaiseFacts.
Context {parsed : Type}.
Variable parse : item_details -> provider_doc -> result parsed.
Variable w : upstream.
Variable cfg : config.

Lemma process_item_fetch_raises provider src item fr e :
  _fetch_item_details w (src_id src) (item_id item) = Raise e ->
  process_item parse w provider src item fr = (Raise e, fr).
Proof. intros H. unfold process_item; run_M. by rewrite H. Qed.

Lemma process_source_listing_raises provider src fr e :
  _fetch_items w (src_id src) (stored_last_item_id provider (src_id src)) = Raise e ->
  process_source parse w provider src fr = (Raise e, fr).
Proof. intros H. unfold process_source; run_M. by rewrite H. Qed.

Lemma process_source_item_raises provider src listing pre item post fr fr1 e :
  _fetch_items w (src_id src) (stored_last_item_id provider (src_id src))
    = Return listing ->
  List.filter is_allowed_item listing = pre ++ item :: post ->
  for_each pre (process_item parse w provider src) fr = (Return tt, fr1) ->
  _fetch_item_details w (src_id src) (item_id item) = Raise e ->
  process_source parse w provider src fr = (Raise e, fr1).
Proof.
  intros Hl Hsplit Hpre He.
  unfold process_source; run_M. rewrite Hl, Hsplit.
  eapply for_each_raise; [done|]. by apply process_item_fetch_raises.
Qed.

Lemma _update_raises provider update e fr :
  _update_body parse w cfg provider {| fr_update := update; fr_parsed_items := [] |}
    = (Raise e, fr) ->
  _update parse w cfg provider update = (Raise e, fr_update fr).
Proof. intros H. unfold _update. by rewrite H. Qed.

Lemma _update_body_source_raises provider pre src post fr fr0 fr1 e :
  _fetch_sources w cfg = Return (pre ++ src :: post) ->
  for_each pre (process_source parse w provider) fr = (Return tt, fr0) ->
  process_source parse w provider src fr0 = (Raise e, fr1) ->
  _update_body parse w cfg provider fr = (Raise e, fr1).
Proof.
  intros Hs Hpre He. unfold _update_body; run_M. rewrite Hs.
  by eapply for_each_raise.
Qed.
End RaiseFacts.

(** ** Small facts the claims use *)

Lemma py_lower_empty s : py_lower s = "" <-> s = "".
Proof. destruct s; simpl; split; congruence. Qed.

Lemma occurs_in_middle before needle after :
  occurs_in needle (before +:+ needle +:+ after).
Proof. by exists before, after. Qed.

Lemma string_app_assoc (a b c : string) : (a +:+ b) +:+ c = a +:+ (b +:+ c).
Proof.
  induction a as [|x a IH]; [done|].
  change (String x ((a +:+ b) +:+ c) = String x (a +:+ (b +:+ c))). by f_equal.
Qed.

(** ** Error envelopes *)

Lemma get_url_error_envelope {A} (endpoint : request -> response A) url params c d :
  endpoint {| req_url := url; req_params := params |} = ErrorEnvelope c d ->
  get_url endpoint url params = Raise (ApiGeneralError (error_message url c d)).
Proof. intros H. unfold get_url. by rewrite H. Qed.

Lemma error_message_carries_code url c d : occurs_in (py_str c) (error_message url c d).
Proof.
  unfold error_message.
  exists ("Error in GET: '" +:+ url +:+ "'. ErrorCode: '"),
         ("'. Description: '" +:+ py_str d +:+ "'").
  by rewrite !string_app_assoc.
Qed.

Lemma error_message_carries_description url c d :
  occurs_in (py_str d) (error_message url c d).
Proof.
  unfold error_message.
  exists ("Error in GET: '" +:+ url +:+ "'. ErrorCode: '" +:+ py_str c
          +:+ "'. Description: '"), "'".
  by rewrite !string_app_assoc.
Qed.

Lemma _fetch_items_error_envelope w source_id to_item c d :
  items_endpoint w {| req_url := HTTP_ITEMS_URL source_id;
                      req_params := items_payload to_item |} = ErrorEnvelope c d ->
  _fetch_items w source_id to_item
  = Raise (ApiGeneralError (error_message (HTTP_ITEMS_URL source_id) c d)).
Proof. intros H. unfold _fetch_items. by rewrite (get_url_error_envelope _ _ _ _ _ H). Qed.

Lemma _fetch_item_details_error_envelope w source_id item_id c d :
  details_endpoint w {| req_url := HTTP_ITEM_DETAILS_URL source_id item_id;
                        req_params := None |} = ErrorEnvelope c d ->
  _fetch_item_details w source_id item_id
  = Raise (ApiGeneralError
             (error_message (HTTP_ITEM_DETAILS_URL source_id item_id) c d)).
Proof.
  intros H. unfold _fetch_item_details. by rewrite (get_url_error_envelope _ _ _ _ _ H).
Qed.

Lemma _fetch_sources_error_envelope w cfg c d :
  sources_endpoint w {| req_url := HTTP_SOURCES_URL; req_params := None |}
    = ErrorEnvelope c d ->
  _fetch_sources w cfg = Raise (ApiGeneralError (error_message HTTP_SOURCES_URL c d)).
Proof. intros H. unfold _fetch_sources. by rewrite (get_url_error_envelope _ _ _ _ _ H). Qed.

Lemma _fetch_media_link_error_envelope w source_id item_id c d :
  media_endpoint w {| req_url := HTTP_ITEM_MEDIA_LIST_URL source_id item_id;
                      req_params := None |} = ErrorEnvelope c d ->
  _fetch_media_link w source_id item_id
  = Raise (ApiGeneralError
             (error_message (HTTP_ITEM_MEDIA_LIST_URL source_id item_id) c d)).
Proof.
  intros H. unfold _fetch_media_link. by rewrite (get_url_error_envelope _ _ _ _ _ H).
Qed.

(** ** One item, one checkpoint *)

Lemma process_item_checkpoint {parsed}
    (parse : item_details -> provider_doc -> result parsed) w provider src item d fr :
  _fetch_item_details w (src_id src) (item_id item) = Return d ->
  stored_last_item_id (fr_update (process_item parse w provider src item fr).2)
    (src_id src) = det_id d.
Proof.
  intros Hd. unfold process_item, mbind, M_bind, call, set_checkpoint.
  rewrite Hd. simpl.
  destruct (parse d provider); simpl; unfold stored_last_item_id;
    by rewrite doc_sources_write_checkpoint, lookup_insert_eq.
Qed.

Lemma for_each_snoc_return {parsed A} (l : list A) (x : A)
    (body : A -> M parsed unit) fr fr1 :
  for_each (l ++ [x]) body fr = (Return tt, fr1) ->
  exists fr', for_each l body fr = (Return tt, fr') /\ body x fr' = (Return tt, fr1).
Proof.
  rewrite for_each_app. destruct (for_each l body fr) as [[e|[]] fr']; [done|].
  simpl. unfold mbind, M_bind.
  destruct (body x fr') as [[e|[]] fr''] eqn:Hx; [done|].
  unfold mret, M_ret. intros [= <-]. by exists fr'.
Qed.

(** ** Media links *)

Lemma media_details_url_not_empty source_id item_id media_id :
  String.eqb (HTTP_ITEM_MEDIA_DETAILS_URL source_id item_id media_id) "" = false.
Proof. reflexivity. Qed.

Lemma _fetch_media_link_some w source_id item_id link :
  _fetch_media_link w source_id item_id = Return (Some link) ->
  String.eqb link "" = false.
Proof.
  unfold _fetch_media_link.
  destruct (get_url _ _ _) as [e|renditions]; simpl; [done|].
  unfold mret, result_ret.
  destruct (first_allowed_rendition renditions) as [rend|]; [|done].
  destruct (py_truthy (rend_id rend)); [|done].
  intros [= <-]. apply media_details_url_not_empty.
Qed.

Lemma _fetch_item_details_payload w source_id item_id d :
  details_endpoint w {| req_url := HTTP_ITEM_DETAILS_URL source_id item_id;
                        req_params := None |} = Payload d ->
  _fetch_item_details w source_id item_id
  = if py_truthy (det_hasMedia d)
    then match _fetch_media_link w source_id item_id with
         | Raise e => Raise e
         | Return (Some link) => Return (set_media_link d link)
         | Return None => Return d
         end
    else Return d.
Proof.
  intros H. unfold _fetch_item_details, get_url. rewrite H. simpl.
  destruct (py_truthy (det_hasMedia d)); [|done].
  destruct (_fetch_media_link w source_id item_id) as [e|[link|]] eqn:Hm; simpl; try done.
  by rewrite (_fetch_media_link_some _ _ _ _ Hm).
Qed.

(** * The claims *)

(** C1.  During a run the checkpoint of a source is written once per
    resolved item, at once, with the id of the resolved item, and only items
    of an allowed kind are resolved.  Whether [_update] returns or raises,
    [update] is the incoming dictionary with one checkpoint write per
    resolved detail, in order; every resolved detail is the detail of a
    listed item of kind [TEXTARTICLE] of a selected source; the step for one
    item leaves the source's checkpoint at the detail's id even when the
    parser then raises.  In the end-to-end scenario (listing 103, 102, 101
    with 102 a photo, checkpoint 100) the run returns the articles 101 and
    103 without requesting 102 and leaves the checkpoint at 103. *)
Theorem C1_checkpoint_per_allowed_item :
  (forall (parsed : Type) (parse : item_details -> provider_doc -> result parsed)
          (w : upstream) (cfg : config) (provider update : provider_doc),
      let r := run_progress parse w cfg provider in
      (_update parse w cfg provider update).2 = apply_checkpoints (resolved r) update
      /\ (forall src d, (src, d) ∈ resolved r ->
            exists sources listing item,
              _fetch_sources w cfg = Return sources
              /\ src ∈ sources
              /\ _fetch_items w (src_id src) (stored_last_item_id provider (src_id src))
                 = Return listing
              /\ item ∈ listing
              /\ item_kind item = PStr "TEXTARTICLE"
              /\ _fetch_item_details w (src_id src) (item_id item) = Return d)
      /\ (forall src item d fr,
            _fetch_item_details w (src_id src) (item_id item) = Return d ->
            stored_last_item_id
              (fr_update (process_item parse w provider src item fr).2) (src_id src)
            = det_id d))
  /\ _update Scenario.parse_article Scenario.end_to_end Scenario.cfg
       Scenario.provider_at_100 Scenario.fresh_update
     = (Return [[Scenario.article 101; Scenario.article 103]],
        write_checkpoint Scenario.fresh_update (PInt 1)
          {| entry_title := "ANP 101"; entry_last_item_id := PInt 103 |})
  /\ details_endpoint Scenario.end_to_end
       {| req_url := HTTP_ITEM_DETAILS_URL (PInt 1) (PInt 102); req_params := None |}
     = Failure "not found"
  /\ stored_last_item_id
       (_update Scenario.parse_article Scenario.end_to_end Scenario.cfg
          Scenario.provider_at_100 Scenario.fresh_update).2 (PInt 1)
     = PInt 103.
Proof.
  split; [|split; [|split]]; [|vm_compute; reflexivity..].
  intros parsed parse w cfg provider update r. split; [|split].
  - by rewrite _update_run_progress.
  - intros src d Hin.
    destruct (run_progress_resolved _ _ _ _ _ _ Hin)
      as (sources & listing & item & Hs & Hsrc & Hl & Hitem & Hkind & Hd).
    exists sources, listing, item. by rewrite <- is_allowed_item_spec.
  - intros src item d fr Hd. by apply process_item_checkpoint.
Qed.

Lemma C1_checkpoint_per_allowed_item_witness :
  stored_last_item_id
    (fr_update
       (process_item Scenario.parse_article Scenario.end_to_end
          Scenario.provider_at_100 Scenario.anp_101
          {| item_id := PInt 101; item_kind := PStr "TEXTARTICLE" |}
          {| fr_update := Scenario.fresh_update; fr_parsed_items := [] |}).2)
    (PInt 1)
  = PInt 101.
Proof.
  exact (proj2 (proj2 (proj1 C1_checkpoint_per_allowed_item _
           Scenario.parse_article Scenario.end_to_end Scenario.cfg
           Scenario.provider_at_100 Scenario.fresh_update))
         Scenario.anp_101 {| item_id := PInt 101; item_kind := PStr "TEXTARTICLE" |}
         (Scenario.article 101)
         {| fr_update := Scenario.fresh_update; fr_parsed_items := [] |} eq_refl).
Defined.

(** C2, as the code has it.  The claim holds for the error and for the
    checkpoints, not for the items: [_update] raises and returns nothing, so
    what was resolved and parsed before the failure stays in the local list
    and is dropped.  Here the detail request for 103 fails after 101 was
    resolved: the call raises, [update] holds the checkpoint 101, and the
    parsed article 101 is in the frame the exception discards. *)
Lemma C2_resolved_items_not_returned :
  _update Scenario.parse_article Scenario.fails_at_103 Scenario.cfg
    Scenario.provider_at_100 Scenario.fresh_update
  = (Raise (ApiGeneralError
       "Error in GET: 'https://newsapi.anp.nl/services/sources/1/items/103'. ErrorCode: 'E1'. Description: 'boom'"),
     write_checkpoint Scenario.fresh_update (PInt 1)
       {| entry_title := "ANP 101"; entry_last_item_id := PInt 101 |})
  /\ fr_parsed_items
       (_update_body Scenario.parse_article Scenario.fails_at_103 Scenario.cfg
          Scenario.provider_at_100
          {| fr_update := Scenario.fresh_update; fr_parsed_items := [] |}).2
     = [Scenario.article 101].
Proof. split; vm_compute; reflexivity. Qed.

(** C2 (amended).  A fetch that fails makes [_update] raise that error and
    return no items, and leaves [update] holding the checkpoints written up
    to the failure: untouched when the catalog fetch fails, as the sources
    before left it when a listing fetch fails, and as the items before left
    it when a detail (or media) fetch fails.  The items parsed by then are
    in the frame the body raises with, which [_update] does not return. *)
Theorem C2_failed_run_raises_with_partial_checkpoints
    (parsed : Type) (parse : item_details -> provider_doc -> result parsed)
    (w : upstream) (cfg : config) (provider update : provider_doc) (e : exn) :
  (_fetch_sources w cfg = Raise e ->
   _update parse w cfg provider update = (Raise e, update))
  /\ (forall pre_sources src post_sources fr0,
        _fetch_sources w cfg = Return (pre_sources ++ src :: post_sources) ->
        for_each pre_sources (process_source parse w provider)
          {| fr_update := update; fr_parsed_items := [] |} = (Return tt, fr0) ->
        (_fetch_items w (src_id src) (stored_last_item_id provider (src_id src))
           = Raise e ->
         _update parse w cfg provider update = (Raise e, fr_update fr0))
        /\ (forall listing pre item post fr1,
              _fetch_items w (src_id src) (stored_last_item_id provider (src_id src))
                = Return listing ->
              List.filter is_allowed_item listing = pre ++ item :: post ->
              for_each pre (process_item parse w provider src) fr0 = (Return tt, fr1) ->
              _fetch_item_details w (src_id src) (item_id item) = Raise e ->
              _update_body parse w cfg provider
                {| fr_update := update; fr_parsed_items := [] |} = (Raise e, fr1)
              /\ _update parse w cfg provider update = (Raise e, fr_update fr1))).
Proof.
  split.
  - intros H. unfold _update, _update_body; run_M. by rewrite H.
  - intros pre_sources src post_sources fr0 Hs Hpre. split.
    + intros Hl. eapply _update_raises, _update_body_source_raises; [done..|].
      by apply process_source_listing_raises.
    + intros listing pre item post fr1 Hl Hsplit Hitems He.
      assert (_update_body parse w cfg provider
                {| fr_update := update; fr_parsed_items := [] |} = (Raise e, fr1))
        as Hbody.
      { eapply _update_body_source_raises; [done..|].
        by eapply process_source_item_raises. }
      split; [done|]. by apply _update_raises.
Qed.

Lemma C2_failed_run_raises_with_partial_checkpoints_witness :
  _update Scenario.parse_article Scenario.fails_at_103 Scenario.cfg
    Scenario.provider_at_100 Scenario.fresh_update
  = (Raise (ApiGeneralError
       "Error in GET: 'https://newsapi.anp.nl/services/sources/1/items/103'. ErrorCode: 'E1'. Description: 'boom'"),
     write_checkpoint Scenario.fresh_update (PInt 1)
       {| entry_title := "ANP 101"; entry_last_item_id := PInt 101 |}).
Proof.
  refine (proj2
            (proj2 (proj2 (C2_failed_run_raises_with_partial_checkpoints _
                             Scenario.parse_article Scenario.fails_at_103 Scenario.cfg
                             Scenario.provider_at_100 Scenario.fresh_update _)
                      [] Scenario.anp_101 []
                      {| fr_update := Scenario.fresh_update; fr_parsed_items := [] |}
                      eq_refl eq_refl)
               (reverse Scenario.listing_103_102_101)
               [ {| item_id := PInt 101; item_kind := PStr "TEXTARTICLE" |} ]
               {| item_id := PInt 103; item_kind := PStr "TEXTARTICLE" |} []
               {| fr_update := write_checkpoint Scenario.fresh_update (PInt 1)
                    {| entry_title := "ANP 101"; entry_last_item_id := PInt 101 |};
                  fr_parsed_items := [Scenario.article 101] |}
               _ _ _ _)); vm_compute; reflexivity.
Defined.

(** C3, as the code has it.  The title of a source is lower-cased but not
    trimmed, so the filter is not the symmetric one of the claim: a catalog
    title with a trailing blank, ["ANP 101 "], is not selected by the
    allow-list entry ["ANP 101"], though both normalise to the same string. *)
Lemma C3_catalog_title_not_trimmed :
  _fetch_sources Scenario.untrimmed_upstream {| source_titles := "ANP 101" |}
  = Return []
  /\ spec_source_filter Scenario.untrimmed_catalog (py_split "ANP 101")
     = Scenario.untrimmed_catalog.
Proof. split; reflexivity. Qed.

(** C3 (amended).  The source filter returns exactly the catalog sources
    whose title, lower-cased (and not trimmed), equals some entry of the
    comma-separated configuration, lower-cased and trimmed: equality, not
    containment, in catalog order.  The configuration always splits into at
    least one entry; the empty configuration is the single empty entry and
    selects the sources whose title is empty. *)
Theorem C3_source_filter (w : upstream) (cfg : config) (catalog : list source) :
  sources_endpoint w {| req_url := HTTP_SOURCES_URL; req_params := None |}
    = Payload catalog ->
  exists selected,
    _fetch_sources w cfg = Return selected
    /\ selected
       = filter (fun src => py_lower (src_title src)
                   ∈ (fun t => py_strip (py_lower t)) <$> py_split (source_titles cfg))
           catalog
    /\ (forall src, src ∈ selected <->
          src ∈ catalog /\
          exists t, t ∈ py_split (source_titles cfg)
                    /\ py_lower (src_title src) = py_strip (py_lower t))
    /\ selected `sublist_of` catalog
    /\ py_split (source_titles cfg) <> []
    /\ (source_titles cfg = "" ->
        selected = filter (fun src => src_title src = "") catalog).
Proof.
  intros Hcat. eexists. split.
  { unfold _fetch_sources, get_url. rewrite Hcat. simpl.
    rewrite configured_titles_once. reflexivity. }
  split; [reflexivity|]. split; [|split; [|split]].
  - intros src. rewrite list_elem_of_filter, list_elem_of_fmap. split.
    + intros [(t & -> & Ht) Hin]. eauto.
    + intros [Hin (t & Ht & ->)]. eauto.
  - apply sublist_filter.
  - destruct (source_titles cfg) as [|c s]; simpl; [done|].
    destruct (Ascii.eqb c ","); [done|]. by destruct (py_split s).
  - intros ->. simpl. apply list_filter_iff. intros src.
    rewrite list_elem_of_singleton. apply py_lower_empty.
Qed.

Lemma C3_source_filter_witness :
  exists selected,
    _fetch_sources Scenario.end_to_end Scenario.cfg = Return selected
    /\ selected = [Scenario.anp_101].
Proof.
  destruct (C3_source_filter Scenario.end_to_end Scenario.cfg [Scenario.anp_101] eq_refl)
    as (selected & Hfetch & Heq & _).
  exists selected. split; [exact Hfetch|]. rewrite Heq. reflexivity.
Defined.

(** C4.  A response whose body reports an error makes [get_url] raise the
    API error, whose message carries the upstream error code and
    description, and return no data; so does each of the four fetchers, the
    detail fetcher also when it is the media listing of a flagged item that
    reports the error.  An error raised by the listing request of a source
    stops that source with the frame untouched; an error raised while an
    item is fetched stops the source there, with the frame as the items
    before left it, so the checkpoint of the source is the id of the last
    item resolved before.  With code [E1] and description [boom] for item
    103, the run raises with that message and the checkpoint stays at 101. *)
Theorem C4_api_error_envelope :
  (forall (A : Type) (endpoint : request -> response A) url params c d,
      endpoint {| req_url := url; req_params := params |} = ErrorEnvelope c d ->
      get_url endpoint url params = Raise (ApiGeneralError (error_message url c d))
      /\ occurs_in (py_str c) (error_message url c d)
      /\ occurs_in (py_str d) (error_message url c d))
  /\ (forall (w : upstream) (cfg : config) (source_id item_id to_item c d : pyval),
        (sources_endpoint w {| req_url := HTTP_SOURCES_URL; req_params := None |}
           = ErrorEnvelope c d ->
         _fetch_sources w cfg
         = Raise (ApiGeneralError (error_message HTTP_SOURCES_URL c d)))
        /\ (items_endpoint w {| req_url := HTTP_ITEMS_URL source_id;
                                req_params := items_payload to_item |}
              = ErrorEnvelope c d ->
            _fetch_items w source_id to_item
            = Raise (ApiGeneralError (error_message (HTTP_ITEMS_URL source_id) c d)))
        /\ (details_endpoint w {| req_url := HTTP_ITEM_DETAILS_URL source_id item_id;
                                  req_params := None |} = ErrorEnvelope c d ->
            _fetch_item_details w source_id item_id
            = Raise (ApiGeneralError
                       (error_message (HTTP_ITEM_DETAILS_URL source_id item_id) c d)))
        /\ (forall details,
              details_endpoint w {| req_url := HTTP_ITEM_DETAILS_URL source_id item_id;
                                    req_params := None |} = Payload details ->
              py_truthy (det_hasMedia details) = true ->
              media_endpoint w {| req_url := HTTP_ITEM_MEDIA_LIST_URL source_id item_id;
                                  req_params := None |} = ErrorEnvelope c d ->
              _fetch_item_details w source_id item_id
              = Raise (ApiGeneralError
                         (error_message
                            (HTTP_ITEM_MEDIA_LIST_URL source_id item_id) c d))))
  /\ (forall (parsed : Type) (parse : item_details -> provider_doc -> result parsed)
             (w : upstream) (provider : provider_doc) (src : source)
             (fr : frame parsed) (e : exn),
        (_fetch_items w (src_id src) (stored_last_item_id provider (src_id src))
           = Raise e ->
         process_source parse w provider src fr = (Raise e, fr))
        /\ (forall listing pre item post fr1,
              _fetch_items w (src_id src) (stored_last_item_id provider (src_id src))
                = Return listing ->
              List.filter is_allowed_item listing = pre ++ item :: post ->
              for_each pre (process_item parse w provider src) fr = (Return tt, fr1) ->
              _fetch_item_details w (src_id src) (item_id item) = Raise e ->
              process_source parse w provider src fr = (Raise e, fr1)
              /\ (forall earlier last_item last_details,
                    pre = earlier ++ [last_item] ->
                    _fetch_item_details w (src_id src) (item_id last_item)
                      = Return last_details ->
                    stored_last_item_id (fr_update fr1) (src_id src)
                    = det_id last_details)))
  /\ get_url (fun _ : request => @ErrorEnvelope item_details (PStr "E1") (PStr "boom"))
       "https://newsapi.anp.nl/services/sources" None
     = Raise (ApiGeneralError
         "Error in GET: 'https://newsapi.anp.nl/services/sources'. ErrorCode: 'E1'. Description: 'boom'")
  /\ _update Scenario.parse_article Scenario.fails_at_103 Scenario.cfg
       Scenario.provider_at_100 Scenario.fresh_update
     = (Raise (ApiGeneralError
          "Error in GET: 'https://newsapi.anp.nl/services/sources/1/items/103'. ErrorCode: 'E1'. Description: 'boom'"),
        write_checkpoint Scenario.fresh_update (PInt 1)
          {| entry_title := "ANP 101"; entry_last_item_id := PInt 101 |}).
Proof.
  split; [|split; [|split; [|split]]]; [| | |vm_compute; reflexivity..].
  - intros A endpoint url params c d H. split; [|split].
    + by apply get_url_error_envelope.
    + apply error_message_carries_code.
    + apply error_message_carries_description.
  - intros w cfg source_id item_id to_item c d. split; [|split; [|split]].
    + apply _fetch_sources_error_envelope.
    + apply _fetch_items_error_envelope.
    + apply _fetch_item_details_error_envelope.
    + intros details Hdet Hflag Hmedia.
      rewrite (_fetch_item_details_payload _ _ _ _ Hdet), Hflag.
      by rewrite (_fetch_media_link_error_envelope _ _ _ _ _ Hmedia).
  - intros parsed parse w provider src fr e. split.
    + apply process_source_listing_raises.
    + intros listing pre item post fr1 Hl Hsplit Hpre He. split.
      * by eapply process_source_item_raises.
      * intros earlier last_item last_details -> Hd.
        apply for_each_snoc_return in Hpre as (fr' & _ & Hlast).
        rewrite <- (process_item_checkpoint parse w provider src last_item _ fr' Hd).
        by rewrite Hlast.
Qed.

Lemma C4_api_error_envelope_witness :
  get_url (details_endpoint Scenario.fails_at_103)
    (HTTP_ITEM_DETAILS_URL (PInt 1) (PInt 103)) None
  = Raise (ApiGeneralError
             (error_message (HTTP_ITEM_DETAILS_URL (PInt 1) (PInt 103))
                (PStr "E1") (PStr "boom"))).
Proof.
  exact (proj1 (proj1 C4_api_error_envelope item_details
                  (details_endpoint Scenario.fails_at_103)
                  (HTTP_ITEM_DETAILS_URL (PInt 1) (PInt 103)) None
                  (PStr "E1") (PStr "boom") eq_refl)).
Defined.

(** C5.  Whatever listing the upstream returns for a source, the item
    fetcher returns that listing reversed: the same items, none added,
    dropped or filtered by kind, the item at position [i] being the one the
    upstream had at position [i] from the end. *)
Theorem C5_items_reversed (w : upstream) (source_id to_item : pyval)
    (listing : list item_ref) :
  items_endpoint w {| req_url := HTTP_ITEMS_URL source_id;
                      req_params := items_payload to_item |}
    = Payload {| items := listing |} ->
  exists fetched,
    _fetch_items w source_id to_item = Return fetched
    /\ fetched = rev listing
    /\ length fetched = length listing
    /\ (forall i : nat, (i < length listing)%nat ->
          fetched !! i = listing !! (length listing - S i)%nat)
    /\ fetched ≡ₚ listing.
Proof.
  intros H. exists (reverse listing). split; [|split; [|split; [|split]]].
  - unfold _fetch_items, get_url. by rewrite H.
  - unfold reverse. symmetry. apply rev_alt.
  - apply length_reverse.
  - intros i Hi. by apply reverse_lookup.
  - apply reverse_Permutation.
Qed.

Lemma C5_items_reversed_witness :
  exists fetched,
    _fetch_items Scenario.end_to_end (PInt 1) (PInt 100) = Return fetched
    /\ fetched = rev Scenario.listing_103_102_101.
Proof.
  destruct (C5_items_reversed Scenario.end_to_end (PInt 1) (PInt 100)
              Scenario.listing_103_102_101 eq_refl) as (fetched & Hfetch & Hrev & _).
  exists fetched. split; [exact Hfetch | exact Hrev].
Defined.

(** C6, as the code has it.  The resolver tests the id of the selected
    rendition for truth, not for presence: an allowed rendition whose id is
    the number 0 has an id, and yet the resolver returns none where the
    claim promises a link built from that id. *)
Lemma C6_zero_id_gives_none :
  _fetch_media_link (Scenario.media_upstream [Scenario.rendition_zero_id])
    (PInt 1) (PInt 7) = Return None
  /\ first_allowed_rendition [Scenario.rendition_zero_id]
     = Some Scenario.rendition_zero_id
  /\ rend_id Scenario.rendition_zero_id = PInt 0
  /\ spec_media_link (PInt 1) (PInt 7) [Scenario.rendition_zero_id]
     = Some "https://newsapi.anp.nl/services/sources/1/items/7/media/0".
Proof. repeat split. Qed.

(** C6 (amended).  The resolver scans the renditions in the order returned
    and stops at the first whose kind is [imgMid] and whose mime type is
    [image/jpeg].  If the id of that rendition is falsy (absent, None,
    False, 0 or the empty string) it returns none, and no error; otherwise
    it returns the media URL built from the source id, the item id and that
    rendition id.  If no rendition matches, it returns none.  For the
    renditions of the specification's example the link ends in [42]. *)
Theorem C6_media_link_first_match (w : upstream) (source_id item_id : pyval)
    (renditions : list rendition) :
  media_endpoint w {| req_url := HTTP_ITEM_MEDIA_LIST_URL source_id item_id;
                      req_params := None |} = Payload renditions ->
  (forall pre rend post,
      renditions = pre ++ rend :: post ->
      Forall (fun r => is_allowed_rendition r = false) pre ->
      is_allowed_rendition rend = true ->
      _fetch_media_link w source_id item_id
      = Return (if py_truthy (rend_id rend)
                then Some (HTTP_ITEM_MEDIA_DETAILS_URL source_id item_id (rend_id rend))
                else None))
  /\ (Forall (fun r => is_allowed_rendition r = false) renditions ->
      _fetch_media_link w source_id item_id = Return None)
  /\ (forall rend,
        is_allowed_rendition rend = true
        <-> rend_kind rend = PStr "imgMid" /\ rend_mimeType rend = PStr "image/jpeg")
  /\ _fetch_media_link (Scenario.media_upstream Scenario.example_renditions)
       (PInt 1) (PInt 7)
     = Return (Some "https://newsapi.anp.nl/services/sources/1/items/7/media/42").
Proof.
  intros H. unfold _fetch_media_link at 1 2, get_url. rewrite H. simpl.
  split; [|split; [|split]].
  - intros pre rend post -> Hpre Hrend.
    by rewrite (first_allowed_rendition_found _ _ _ Hpre Hrend).
  - intros Hnone. by rewrite first_allowed_rendition_none.
  - apply is_allowed_rendition_spec.
  - reflexivity.
Qed.

Lemma C6_media_link_first_match_witness :
  _fetch_media_link (Scenario.media_upstream Scenario.example_renditions)
    (PInt 1) (PInt 7)
  = Return (Some (HTTP_ITEM_MEDIA_DETAILS_URL (PInt 1) (PInt 7) (PInt 42))).
Proof.
  refine (proj1 (C6_media_link_first_match
                   (Scenario.media_upstream Scenario.example_renditions)
                   (PInt 1) (PInt 7) Scenario.example_renditions eq_refl)
            [ {| rend_id := PNone; rend_kind := PStr "imgSmall"; rend_mimeType := PNone |} ]
            {| rend_id := PInt 42; rend_kind := PStr "imgMid";
               rend_mimeType := PStr "image/jpeg" |}
            [] eq_refl _ eq_refl).
  repeat constructor.
Defined.

(** C7.  The detail fetcher asks the media resolver only for a payload
    whose [hasMedia] is truthy: for any other payload the detail comes back
    as it was received, whatever the media endpoint would answer.  For a
    payload that has media, a resolver that returns none leaves the detail
    as received, with no media link set and no error; a link, when one is
    returned, is set on the detail; an error of the resolver is raised. *)
Theorem C7_media_only_when_flagged (w : upstream) (source_id item_id : pyval)
    (d : item_details) :
  details_endpoint w {| req_url := HTTP_ITEM_DETAILS_URL source_id item_id;
                        req_params := None |} = Payload d ->
  (py_truthy (det_hasMedia d) = false ->
   _fetch_item_details w source_id item_id = Return d
   /\ forall media : request -> response (list rendition),
        _fetch_item_details
          {| sources_endpoint := sources_endpoint w;
             items_endpoint := items_endpoint w;
             details_endpoint := details_endpoint w;
             media_endpoint := media |} source_id item_id
        = Return d)
  /\ (py_truthy (det_hasMedia d) = true ->
      (_fetch_media_link w source_id item_id = Return None ->
       _fetch_item_details w source_id item_id = Return d)
      /\ (forall link, _fetch_media_link w source_id item_id = Return (Some link) ->
            _fetch_item_details w source_id item_id = Return (set_media_link d link))
      /\ (forall e, _fetch_media_link w source_id item_id = Raise e ->
            _fetch_item_details w source_id item_id = Raise e)).
Proof.
  intros H. split.
  - intros Hflag. split.
    + by rewrite (_fetch_item_details_payload _ _ _ _ H), Hflag.
    + intros media. by rewrite (_fetch_item_details_payload _ _ _ d), Hflag.
  - intros Hflag. rewrite (_fetch_item_details_payload _ _ _ _ H), Hflag.
    split; [|split].
    + by intros ->.
    + by intros link ->.
    + by intros e ->.
Qed.

Lemma C7_media_only_when_flagged_witness :
  _fetch_item_details
    (Scenario.item_7 (Scenario.article_with_media 7)
       [ {| rend_id := PNone; rend_kind := PStr "imgSmall"; rend_mimeType := PNone |} ])
    (PInt 1) (PInt 7)
  = Return (Scenario.article_with_media 7).
Proof.
  exact (proj1 (proj2 (C7_media_only_when_flagged
           (Scenario.item_7 (Scenario.article_with_media 7)
              [ {| rend_id := PNone; rend_kind := PStr "imgSmall";
                   rend_mimeType := PNone |} ])
           (PInt 1) (PInt 7) (Scenario.article_with_media 7) eq_refl) eq_refl)
         eq_refl).
Defined.

(** C8, as the code has it.  The code compares no ids: the checkpoint
    becomes the id of whatever was resolved last.  An upstream that lists
    item 50 for the cursor 100 moves the checkpoint of the source from 100
    back to 50. *)
Lemma C8_checkpoint_moves_back :
  stored_last_item_id Scenario.provider_at_100 (PInt 1) = PInt 100
  /\ _update Scenario.parse_article Scenario.lists_older_item Scenario.cfg
       Scenario.provider_at_100 Scenario.fresh_update
     = (Return [[Scenario.article 50]],
        write_checkpoint Scenario.fresh_update (PInt 1)
          {| entry_title := "ANP 101"; entry_last_item_id := PInt 50 |})
  /\ stored_last_item_id
       (_update Scenario.parse_article Scenario.lists_older_item Scenario.cfg
          Scenario.provider_at_100 Scenario.fresh_update).2 (PInt 1)
     = PInt 50
  /\ (50 < 100)%Z.
Proof. repeat split; vm_compute; reflexivity. Qed.

(** C8 (amended).  After a run, returned or raised, the entry of [update]
    under a source key is the one it came with when no detail was resolved
    for that key, and otherwise holds the id of the last detail resolved for
    it.  That id is above the checkpoint stored in the provider whenever the
    upstream keeps to its side: every detail it serves for an allowed item
    listed for a selected source has an integer id above the cursor sent
    for that source. *)
Theorem C8_checkpoint_is_last_resolved
    (parsed : Type) (parse : item_details -> provider_doc -> result parsed)
    (w : upstream) (cfg : config) (provider update : provider_doc) (k : pyval) :
  let r := run_progress parse w cfg provider in
  doc_sources (_update parse w cfg provider update).2 !! k
  = match last (filed_under k (resolved r)) with
    | Some sd => Some (checkpoint_of sd.1 sd.2)
    | None => doc_sources update !! k
    end
  /\ ((forall sources src listing item d,
          _fetch_sources w cfg = Return sources ->
          src ∈ sources ->
          _fetch_items w (src_id src) (stored_last_item_id provider (src_id src))
            = Return listing ->
          item ∈ listing ->
          is_allowed_item item = true ->
          _fetch_item_details w (src_id src) (item_id item) = Return d ->
          exists n, det_id d = PInt n
                    /\ forall c, stored_last_item_id provider (src_id src) = PInt c ->
                                 (c < n)%Z) ->
      forall sd, last (filed_under k (resolved r)) = Some sd ->
        exists n, entry_last_item_id (checkpoint_of sd.1 sd.2) = PInt n
                  /\ forall old c, doc_sources provider !! k = Some old ->
                                   entry_last_item_id old = PInt c -> (c < n)%Z).
Proof.
  intros r. split.
  - rewrite _update_run_progress. simpl. apply apply_checkpoints_lookup.
  - intros Hupstream [src d] Hlast.
    apply last_Some_elem_of in Hlast.
    apply list_elem_of_filter in Hlast as [Hk Hin]. simpl in Hk.
    destruct (run_progress_resolved _ _ _ _ _ _ Hin)
      as (sources & listing & item & Hs & Hsrc & Hl & Hitem & Hkind & Hd).
    destruct (Hupstream _ _ _ _ _ Hs Hsrc Hl Hitem Hkind Hd) as (n & Hn & Hlt).
    exists n. split; [done|]. intros old c Hold Hc. apply Hlt.
    unfold stored_last_item_id. by rewrite Hk, Hold.
Qed.

Lemma C8_checkpoint_is_last_resolved_witness :
  exists n,
    entry_last_item_id (checkpoint_of Scenario.anp_101 (Scenario.article 103)) = PInt n
    /\ forall old c,
         doc_sources Scenario.provider_at_100 !! PInt 1 = Some old ->
         entry_last_item_id old = PInt c -> (c < n)%Z.
Proof.
  refine (proj2 (C8_checkpoint_is_last_resolved _ Scenario.parse_article
                   Scenario.end_to_end Scenario.cfg Scenario.provider_at_100
                   Scenario.fresh_update (PInt 1))
            _ (Scenario.anp_101, Scenario.article 103) eq_refl).
  intros sources src listing item d Hs Hsrc Hl Hitem Hkind Hd.
  vm_compute in Hs. injection Hs as <-.
  apply list_elem_of_singleton in Hsrc as ->.
  vm_compute in Hl. injection Hl as <-.
  assert (forall c, stored_last_item_id Scenario.provider_at_100
                      (src_id Scenario.anp_101) = PInt c -> c = 100%Z) as Hcursor.
  { intros c Hc. vm_compute in Hc. by injection Hc as <-. }
  apply elem_of_cons in Hitem as [->|Hitem].
  { vm_compute in Hd. injection Hd as <-. exists 101%Z. split; [reflexivity|].
    intros c Hc. rewrite (Hcursor c Hc). lia. }
  apply elem_of_cons in Hitem as [->|Hitem]; [discriminate Hkind|].
  apply list_elem_of_singleton in Hitem as ->.
  vm_compute in Hd. injection Hd as <-. exists 103%Z. split; [reflexivity|].
  intros c Hc. rewrite (Hcursor c Hc). lia.
Defined.

(** C9.  When the catalog is fetched and the listing of every selected
    source comes back empty, the run resolves nothing: [_update] returns the
    empty list of items (inside its one-element result list) and leaves
    [update] exactly as it was given. *)
Theorem C9_nothing_new_changes_nothing
    (parsed : Type) (parse : item_details -> provider_doc -> result parsed)
    (w : upstream) (cfg : config) (provider update : provider_doc)
    (sources : list source) :
  _fetch_sources w cfg = Return sources ->
  (forall src, src ∈ sources ->
     items_endpoint w
       {| req_url := HTTP_ITEMS_URL (src_id src);
          req_params := items_payload (stored_last_item_id provider (src_id src)) |}
     = Payload {| items := [] |}) ->
  _update parse w cfg provider update = (Return [[]], update).
Proof.
  intros Hs Hempty. rewrite _update_run_progress. unfold run_progress. rewrite Hs.
  rewrite resolve_sources_nothing_allowed; [done|].
  intros src Hin. exists []. split; [|done].
  unfold _fetch_items, get_url. by rewrite (Hempty src Hin).
Qed.

Lemma C9_nothing_new_changes_nothing_witness :
  _update Scenario.parse_article Scenario.nothing_new Scenario.cfg
    Scenario.provider_at_100 Scenario.provider_at_100
  = (Return [[]], Scenario.provider_at_100).
Proof.
  exact (C9_nothing_new_changes_nothing _ Scenario.parse_article Scenario.nothing_new
           Scenario.cfg Scenario.provider_at_100 Scenario.provider_at_100
           [Scenario.anp_101] eq_refl (fun _ _ => eq_refl)).
Defined.



(** * Beyond the claims *)

(** ** What a run resolves and what it delivers *)

Section RunFacts.
Context {parsed : Type}.
Variable parse : item_details -> provider_doc -> result parsed.
Variable w : upstream.
Variable cfg : config.

Lemma resolve_items_lengths provider src allowed :
  let r := resolve_items parse w provider src allowed in
  (length (resolved r) = length (delivered r)) \/ one_ahead parse provider r.
Proof.
  induction allowed as [|item rest IH]; simpl; [by left|]. cbn zeta in IH.
  destruct (_fetch_item_details w (src_id src) (item_id item)) as [e|d];
    simpl; [by left|].
  destruct (parse d provider) as [e|p] eqn:Hp; simpl.
  - right. split; [done|]. by exists (src, d), e.
  - destruct IH as [IH|(Hlen & sd & e & Hlast & Hsd & Hstop)].
    + left. by f_equal.
    + right. split; [simpl; by f_equal|]. exists sd, e. simpl. split; [|done].
      destruct (resolved (resolve_items parse w provider src rest)); [done|].
      by rewrite last_cons, Hlast.
Qed.

Lemma one_ahead_stopped provider r : one_ahead parse provider r -> stopped r <> None.
Proof. intros (_ & sd & e & _ & _ & ->). done. Qed.

Lemma resolve_sources_lengths provider sources :
  let r := resolve_sources parse w provider sources in
  (length (resolved r) = length (delivered r)) \/ one_ahead parse provider r.
Proof.
  induction sources as [|src rest IH]; simpl; [by left|].
  destruct (_fetch_items w (src_id src) _) as [e|listing]; simpl; [by left|].
  pose proof (resolve_items_lengths provider src (List.filter is_allowed_item listing))
    as Hhere. simpl in Hhere.
  set (r := resolve_items parse w provider src _) in *.
  destruct (stopped r) eqn:Hstop; [done|].
  destruct Hhere as [Hhere|Hahead]; [|by apply one_ahead_stopped in Hahead].
  simpl in IH. set (r' := resolve_sources parse w provider rest) in *.
  destruct IH as [IH|(Hlen & sd & e & Hlast & Hsd & Hstop')].
  - left. simpl. rewrite !length_app. lia.
  - right. split; [simpl; rewrite !length_app; lia|]. exists sd, e. simpl.
    split; [|done]. destruct (resolved r') as [|x l] eqn:Hr'; [done|].
    apply last_Some in Hlast as [l' Hl']. rewrite Hl', app_assoc. apply last_snoc.
Qed.

Lemma run_progress_lengths provider :
  let r := run_progress parse w cfg provider in
  (length (resolved r) = length (delivered r)) \/ one_ahead parse provider r.
Proof.
  unfold run_progress. destruct (_fetch_sources w cfg); simpl; [by left|].
  apply resolve_sources_lengths.
Qed.

(** A loop over the items of one source that ran to its end resolved every
    item and parsed every detail, in order. *)
Lemma resolve_items_complete provider src allowed :
  let r := resolve_items parse w provider src allowed in
  stopped r = None ->
  Forall2 (fun sd item =>
             sd.1 = src
             /\ _fetch_item_details w (src_id src) (item_id item) = Return sd.2)
    (resolved r) allowed
  /\ Forall2 (fun p sd => parse sd.2 provider = Return p) (delivered r) (resolved r).
Proof.
  induction allowed as [|item rest IH]; simpl; [by split; constructor|].
  destruct (_fetch_item_details w (src_id src) (item_id item)) as [e|d] eqn:Hd;
    simpl; [done|].
  destruct (parse d provider) as [e|p] eqn:Hp; simpl; [done|].
  intros Hstop. destruct (IH Hstop) as [Hres Hdel].
  split; by constructor.
Qed.

Lemma work_list_cons provider src rest :
  work_list w provider (src :: rest)
  = ((fun item => (src, item)) <$> allowed_items_of w provider src)
    ++ work_list w provider rest.
Proof. reflexivity. Qed.

Lemma resolve_sources_complete provider sources :
  let r := resolve_sources parse w provider sources in
  stopped r = None ->
  Forall2 (fun sd si =>
             sd.1 = si.1
             /\ _fetch_item_details w (src_id si.1) (item_id si.2) = Return sd.2)
    (resolved r) (work_list w provider sources)
  /\ Forall2 (fun p sd => parse sd.2 provider = Return p) (delivered r) (resolved r).
Proof.
  induction sources as [|src rest IH]; [by split; constructor|].
  cbv zeta in *. rewrite work_list_cons. cbn [resolve_sources].
  unfold allowed_items_of.
  destruct (_fetch_items w (src_id src) _) as [e|listing]; simpl; [done|].
  pose proof (resolve_items_complete provider src (List.filter is_allowed_item listing))
    as Hhere. simpl in Hhere.
  set (r := resolve_items parse w provider src _) in *.
  destruct (stopped r) eqn:Hstop; [by rewrite Hstop|]. simpl.
  intros Hstop'. destruct (Hhere eq_refl) as [Hres Hdel].
  destruct (IH Hstop') as [Hres' Hdel'].
  split; apply Forall2_app; try done.
  apply Forall2_fmap_r. eapply Forall2_impl; [exact Hres|].
  intros sd item [-> Hd]. by split.
Qed.
End RunFacts.

(** ** Checkpoints written and read *)


(** X2.  A run never removes a checkpoint entry from [update], and it leaves
    alone every entry whose key is not the key of a selected source. *)
Theorem X2_run_keeps_other_entries
    (parsed : Type) (parse : item_details -> provider_doc -> result parsed)
    (w : upstream) (cfg : config) (provider update : provider_doc) (k : pyval) :
  (is_Some (doc_sources update !! k) ->
   is_Some (doc_sources (_update parse w cfg provider update).2 !! k))
  /\ ((forall sources src,
          _fetch_sources w cfg = Return sources -> src ∈ sources ->
          py_hashkey (src_id src) <> k) ->
      doc_sources (_update parse w cfg provider update).2 !! k
      = doc_sources update !! k).
Proof.
  rewrite _update_run_progress. simpl. rewrite apply_checkpoints_lookup. split.
  - intros Hsome. by destruct (last _).
  - intros Hother.
    destruct (last _) as [[src d]|] eqn:Hlast; [|done]. exfalso.
    apply last_Some_elem_of, list_elem_of_filter in Hlast as [Hk Hin].
    destruct (run_progress_resolved _ _ _ _ _ _ Hin)
      as (sources & _ & _ & Hs & Hsrc & _).
    by apply (Hother sources src).
Qed.

Lemma X2_run_keeps_other_entries_witness :
  is_Some
    (doc_sources
       (_update Scenario.parse_article Scenario.end_to_end Scenario.cfg
          Scenario.provider_at_100 Scenario.provider_at_100).2 !! PInt 1).
Proof.
  exact (proj1 (X2_run_keeps_other_entries _ Scenario.parse_article
                  Scenario.end_to_end Scenario.cfg Scenario.provider_at_100
                  Scenario.provider_at_100 (PInt 1))
           (ex_intro _ _ eq_refl)).
Defined.

(** X3.  The checkpoints a run writes are never more than one ahead of the
    items it parses.  The frame the body ends with holds the checkpoints of
    the resolved details and the parsed items delivered; either there are as
    many of the one as of the other, or there is exactly one more resolved
    detail, the last one, on which the parser raised the error that stopped
    the run: its id is the checkpoint although it was never delivered. *)
Theorem X3_checkpoint_at_most_one_ahead
    (parsed : Type) (parse : item_details -> provider_doc -> result parsed)
    (w : upstream) (cfg : config) (provider update : provider_doc) :
  let r := run_progress parse w cfg provider in
  (_update_body parse w cfg provider
     {| fr_update := update; fr_parsed_items := [] |}).2
  = {| fr_update := apply_checkpoints (resolved r) update;
       fr_parsed_items := delivered r |}
  /\ (length (resolved r) = length (delivered r)
      \/ (length (resolved r) = S (length (delivered r))
          /\ exists sd e,
               last (resolved r) = Some sd
               /\ parse sd.2 provider = Raise e
               /\ (_update parse w cfg provider update).1 = Raise e
               /\ stored_last_item_id (_update parse w cfg provider update).2
                    (src_id sd.1) = det_id sd.2)).
Proof.
  intros r. split.
  - by rewrite _update_body_progress.
  - destruct (run_progress_lengths parse w cfg provider)
      as [Hlen|(Hlen & sd & e & Hlast & Hsd & Hstop)]; [by left|].
    right. split; [done|]. exists sd, e. fold r in Hlast, Hstop.
    rewrite _update_run_progress. fold r. rewrite Hstop. simpl.
    repeat split; try done.
    apply last_Some in Hlast as [tr ->].
    rewrite apply_checkpoints_snoc. unfold stored_last_item_id.
    by rewrite doc_sources_write_checkpoint, lookup_insert_eq.
Qed.

Lemma X3_checkpoint_at_most_one_ahead_witness :
  _update (Edge.parse_rejecting 103) Scenario.end_to_end Scenario.cfg
    Scenario.provider_at_100 Scenario.fresh_update
  = (Raise (ParserError "rejected"),
     write_checkpoint Scenario.fresh_update (PInt 1)
       {| entry_title := "ANP 101"; entry_last_item_id := PInt 103 |})
  /\ (_update_body (Edge.parse_rejecting 103) Scenario.end_to_end Scenario.cfg
        Scenario.provider_at_100
        {| fr_update := Scenario.fresh_update; fr_parsed_items := [] |}).2
     = {| fr_update := write_checkpoint Scenario.fresh_update (PInt 1)
            {| entry_title := "ANP 101"; entry_last_item_id := PInt 103 |};
          fr_parsed_items := [Scenario.article 101] |}.
Proof.
  split; [vm_compute; reflexivity|].
  rewrite (proj1 (X3_checkpoint_at_most_one_ahead _ (Edge.parse_rejecting 103)
                    Scenario.end_to_end Scenario.cfg Scenario.provider_at_100
                    Scenario.fresh_update)).
  vm_compute. reflexivity.
Defined.

(** X4.  A run that returns has resolved and parsed its whole work list, in
    order: the sources in catalog order, each with its allowed items oldest
    first.  The returned items are, position by position, the parses of the
    details fetched for the work list, so there are exactly as many of them
    as there are allowed items listed. *)
Theorem X4_returned_items_follow_work_list
    (parsed : Type) (parse : item_details -> provider_doc -> result parsed)
    (w : upstream) (cfg : config) (provider update : provider_doc)
    (sources : list source) (returned : list parsed) :
  _fetch_sources w cfg = Return sources ->
  (_update parse w cfg provider update).1 = Return [returned] ->
  exists details,
    Forall2 (fun sd si =>
               sd.1 = si.1
               /\ _fetch_item_details w (src_id si.1) (item_id si.2) = Return sd.2)
      details (work_list w provider sources)
    /\ Forall2 (fun p sd => parse sd.2 provider = Return p) returned details
    /\ length returned = length (work_list w provider sources)
    /\ (_update parse w cfg provider update).2 = apply_checkpoints details update.
Proof.
  intros Hs. rewrite _update_run_progress. unfold run_progress. rewrite Hs. simpl.
  destruct (stopped (resolve_sources parse w provider sources)) eqn:Hstop; [done|].
  intros [= <-].
  destruct (resolve_sources_complete parse w provider sources Hstop) as [Hres Hdel].
  exists (resolved (resolve_sources parse w provider sources)).
  repeat split; try done.
  by rewrite (Forall2_length _ _ _ Hdel), (Forall2_length _ _ _ Hres).
Qed.

Lemma X4_returned_items_follow_work_list_witness :
  exists details,
    Forall2 (fun sd si =>
               sd.1 = si.1
               /\ _fetch_item_details Scenario.end_to_end (src_id si.1) (item_id si.2)
                  = Return sd.2)
      details
      [ (Scenario.anp_101, {| item_id := PInt 101; item_kind := PStr "TEXTARTICLE" |});
        (Scenario.anp_101, {| item_id := PInt 103; item_kind := PStr "TEXTARTICLE" |}) ]
    /\ Forall2 (fun p sd => Scenario.parse_article sd.2 Scenario.provider_at_100
                            = Return p)
         [Scenario.article 101; Scenario.article 103] details.
Proof.
  destruct (X4_returned_items_follow_work_list _ Scenario.parse_article
              Scenario.end_to_end Scenario.cfg Scenario.provider_at_100
              Scenario.fresh_update [Scenario.anp_101]
              [Scenario.article 101; Scenario.article 103] eq_refl eq_refl)
    as (details & Hres & Hdel & _).
  exists details. split; [exact Hres | exact Hdel].
Defined.

(** ** Commas, case and blanks in titles *)

Lemma py_lower_char_comma c :
  Ascii.eqb (py_lower_char c) ","%char = Ascii.eqb c ","%char.
Proof. by destruct c as [[] [] [] [] [] [] [] []]. Qed.

Lemma py_isspace_comma c : Ascii.eqb c ","%char = true -> py_isspace c = false.
Proof. intros ->%Ascii.eqb_eq. reflexivity. Qed.

Lemma has_comma_lower s : has_comma (py_lower s) = has_comma s.
Proof.
  induction s as [|c s IH]; simpl; [done|]. by rewrite py_lower_char_comma, IH.
Qed.

Lemma has_comma_lstrip s : has_comma s = false -> has_comma (py_lstrip s) = false.
Proof.
  induction s as [|c s IH]; simpl; [done|].
  intros [Hc Hs]%orb_false_iff. destruct (py_isspace c); [by apply IH|].
  simpl. by rewrite Hc, Hs.
Qed.

Lemma has_comma_rstrip s : has_comma s = false -> has_comma (py_rstrip s) = false.
Proof.
  induction s as [|c s IH]; simpl; [done|].
  intros [Hc Hs]%orb_false_iff. specialize (IH Hs).
  destruct (py_rstrip s) as [|c' r].
  - destruct (py_isspace c); simpl; [done|]. by rewrite Hc.
  - change (has_comma (String c (String c' r)))
      with (Ascii.eqb c "," || has_comma (String c' r)).
    by rewrite Hc, IH.
Qed.

Lemma has_comma_strip s : has_comma s = false -> has_comma (py_strip s) = false.
Proof. intros H. unfold py_strip. by apply has_comma_rstrip, has_comma_lstrip. Qed.

Lemma py_split_cons_inv s : exists piece pieces, py_split s = piece :: pieces.
Proof.
  destruct s as [|c s]; simpl; [by eexists _, _|].
  destruct (Ascii.eqb c ","); [by eexists _, _|].
  destruct (py_split s); by eexists _, _.
Qed.

Lemma py_split_pieces_comma_free s : Forall (fun piece => has_comma piece = false) (py_split s).
Proof.
  induction s as [|c s IH]; simpl; [by repeat constructor|].
  destruct (Ascii.eqb c ",") eqn:Hc; [by constructor|].
  destruct (py_split s) as [|piece pieces]; [by repeat constructor; simpl; rewrite Hc|].
  inversion_clear IH as [|? ? Hpiece Hpieces].
  constructor; [|done]. simpl. by rewrite Hc, Hpiece.
Qed.

Lemma py_split_length s : length (py_split s) = S (count_commas s).
Proof.
  induction s as [|c s IH]; simpl; [done|].
  destruct (Ascii.eqb c ","); simpl; [by rewrite IH|].
  destruct (py_split s); simpl in *; lia.
Qed.

Lemma py_split_lower s : py_split (py_lower s) = py_lower <$> py_split s.
Proof.
  induction s as [|c s IH]; simpl; [done|].
  rewrite py_lower_char_comma, IH.
  destruct (Ascii.eqb c ","); [done|].
  by destruct (py_split s).
Qed.

Lemma py_lower_length s : String.length (py_lower s) = String.length s.
Proof. induction s as [|c s IH]; simpl; [done|]. by rewrite IH. Qed.

Lemma py_lstrip_length s : String.length (py_lstrip s) <= String.length s.
Proof.
  induction s as [|c s IH]; simpl; [lia|]. destruct (py_isspace c); simpl; lia.
Qed.

Lemma py_lstrip_same_length s :
  String.length (py_lstrip s) = String.length s -> py_lstrip s = s.
Proof.
  destruct s as [|c s]; simpl; [done|]. destruct (py_isspace c); [|done].
  pose proof (py_lstrip_length s). lia.
Qed.

Lemma py_rstrip_length s : String.length (py_rstrip s) <= String.length s.
Proof.
  induction s as [|c s IH]; simpl; [lia|].
  destruct (py_rstrip s); [destruct (py_isspace c)|]; simpl in *; lia.
Qed.

Lemma py_rstrip_same_length s :
  String.length (py_rstrip s) = String.length s -> py_rstrip s = s.
Proof.
  induction s as [|c s IH]; simpl; [done|].
  pose proof (py_rstrip_length s) as Hle.
  destruct (py_rstrip s) as [|c' r] eqn:Hr.
  - destruct (py_isspace c); simpl in *; [lia|].
    intros Hlen. rewrite IH; [done|]. simpl. lia.
  - simpl in *. intros Hlen. rewrite IH; [done|]. simpl. lia.
Qed.

Lemma py_strip_same_length s :
  String.length (py_strip s) = String.length s -> py_strip s = s.
Proof.
  unfold py_strip. intros Hlen.
  pose proof (py_rstrip_length (py_lstrip s)). pose proof (py_lstrip_length s).
  assert (py_lstrip s = s) as Hl by (apply py_lstrip_same_length; lia).
  rewrite Hl in *. by apply py_rstrip_same_length.
Qed.

(** A title whose lower-cased form is trimmed is trimmed itself. *)
Lemma py_strip_fixed_of_lower s : py_strip (py_lower s) = py_lower s -> py_strip s = s.
Proof.
  rewrite <- py_lower_strip. intros H. apply py_strip_same_length.
  by rewrite <- (py_lower_length (py_strip s)), H, py_lower_length.
Qed.

Lemma configured_titles_normal cfg t :
  t ∈ configured_titles cfg ->
  py_lower t = t /\ py_strip t = t /\ has_comma t = false.
Proof.
  rewrite configured_titles_once. intros (piece & -> & Hpiece)%list_elem_of_fmap.
  split; [|split].
  - by rewrite <- py_lower_strip, py_lower_idem.
  - apply py_strip_idem.
  - apply has_comma_strip. rewrite has_comma_lower.
    by apply (proj1 (Forall_forall _ _) (py_split_pieces_comma_free (source_titles cfg))).
Qed.

(** X5.  The two normalising passes over the configured titles amount to
    one; the configuration yields one title more than it has commas, and
    every configured title is in normal form: lower case, trimmed, and free
    of commas. *)
Theorem X5_configured_titles_normal_form (cfg : config) :
  configured_titles cfg
  = (fun t => py_strip (py_lower t)) <$> py_split (source_titles cfg)
  /\ length (configured_titles cfg) = S (count_commas (source_titles cfg))
  /\ Forall (fun t => py_lower t = t /\ py_strip t = t /\ has_comma t = false)
       (configured_titles cfg).
Proof.
  split; [apply configured_titles_once|]. split.
  - by rewrite configured_titles_once, length_fmap, py_split_length.
  - apply Forall_forall. intros t Ht. by apply (configured_titles_normal cfg).
Qed.

(** X6.  A source can be selected only if its title is trimmed and has no
    comma: a catalog title that starts or ends with white space, or that
    contains a comma, is out of reach of every configuration. *)
Theorem X6_selected_titles_trimmed_comma_free (w : upstream) (cfg : config)
    (sources : list source) (src : source) :
  _fetch_sources w cfg = Return sources ->
  src ∈ sources ->
  py_strip (src_title src) = src_title src /\ has_comma (src_title src) = false.
Proof.
  unfold _fetch_sources.
  destruct (get_url _ _ _) as [e|catalog]; simpl; [done|].
  unfold mret, result_ret. intros [= <-] [Hsel _]%list_elem_of_filter.
  destruct (configured_titles_normal cfg _ Hsel) as (_ & Hstrip & Hcomma).
  split; [by apply py_strip_fixed_of_lower|]. by rewrite <- has_comma_lower.
Qed.

Lemma X6_selected_titles_trimmed_comma_free_witness :
  py_strip "ANP 101" = "ANP 101" /\ has_comma "ANP 101" = false.
Proof.
  exact (X6_selected_titles_trimmed_comma_free Edge.mixed_upstream Scenario.cfg
           [Scenario.anp_101] Scenario.anp_101 eq_refl (list_elem_of_here _ _)).
Defined.

(** X7.  The selection ignores case on both sides: two configurations that
    agree up to case select the same sources, and a catalog source whose
    title agrees up to case with the title of a selected source is selected
    too. *)
Theorem X7_selection_ignores_case (w : upstream) :
  (forall cfg cfg',
      py_lower (source_titles cfg) = py_lower (source_titles cfg') ->
      _fetch_sources w cfg = _fetch_sources w cfg')
  /\ (forall cfg catalog sources a b,
        sources_endpoint w {| req_url := HTTP_SOURCES_URL; req_params := None |}
          = Payload catalog ->
        _fetch_sources w cfg = Return sources ->
        a ∈ sources -> b ∈ catalog ->
        py_lower (src_title b) = py_lower (src_title a) ->
        b ∈ sources).
Proof.
  split.
  - intros cfg cfg' Hcase.
    assert (configured_titles cfg = configured_titles cfg') as Heq.
    { rewrite !configured_titles_once.
      rewrite !(list_fmap_compose py_lower py_strip), <- !py_split_lower.
      by rewrite Hcase. }
    unfold _fetch_sources. by rewrite Heq.
  - intros cfg catalog sources a b Hcat. unfold _fetch_sources, get_url.
    rewrite Hcat. simpl. unfold mret, result_ret. intros [= <-].
    rewrite !list_elem_of_filter. intros [Ha _] Hb Hcase. by rewrite Hcase.
Qed.

Lemma X7_selection_ignores_case_witness :
  _fetch_sources Edge.mixed_upstream {| source_titles := "anp 101" |}
  = _fetch_sources Edge.mixed_upstream {| source_titles := "ANP 101" |}.
Proof.
  exact (proj1 (X7_selection_ignores_case Edge.mixed_upstream)
           {| source_titles := "anp 101" |} {| source_titles := "ANP 101" |} eq_refl).
Defined.

Example comma_title_out_of_reach :
  _fetch_sources Edge.mixed_upstream {| source_titles := "AFN, ANP" |} = Return []
  /\ _fetch_sources Edge.mixed_upstream {| source_titles := " reuters ,anp 101" |}
     = Return [ {| src_id := PInt 1; src_title := "ANP 101" |};
                {| src_id := PInt 3; src_title := "Reuters" |} ].
Proof. split; reflexivity. Qed.

(** ** The media resolver and the detail fetcher *)

Lemma first_allowed_rendition_some renditions rend :
  first_allowed_rendition renditions = Some rend ->
  exists pre post,
    renditions = pre ++ rend :: post
    /\ Forall (fun r => is_allowed_rendition r = false) pre
    /\ is_allowed_rendition rend = true.
Proof.
  induction renditions as [|r rest IH]; simpl; [done|].
  destruct (is_allowed_rendition r) eqn:Hr.
  - intros [= ->]. by exists [], rest.
  - intros (pre & post & -> & Hpre & Hrend)%IH.
    exists (r :: pre), post. split; [done|]. split; [by constructor|done].
Qed.

(** X8.  The resolver returns a link only for a rendition it was served:
    the link is the media URL of a rendition of the list whose kind and mime
    type are allowed, whose id is truthy, and before which no rendition of
    the list is allowed; it is the URL of the media listing followed by a
    slash and that id. *)
Theorem X8_media_link_comes_from_list (w : upstream) (source_id item_id : pyval)
    (link : string) :
  _fetch_media_link w source_id item_id = Return (Some link) ->
  exists pre rend post,
    media_endpoint w {| req_url := HTTP_ITEM_MEDIA_LIST_URL source_id item_id;
                        req_params := None |} = Payload (pre ++ rend :: post)
    /\ Forall (fun r => is_allowed_rendition r = false) pre
    /\ is_allowed_rendition rend = true
    /\ py_truthy (rend_id rend) = true
    /\ link = HTTP_ITEM_MEDIA_DETAILS_URL source_id item_id (rend_id rend)
    /\ link = HTTP_ITEM_MEDIA_LIST_URL source_id item_id +:+ "/"
              +:+ py_str (rend_id rend).
Proof.
  unfold _fetch_media_link, get_url.
  destruct (media_endpoint w _) as [reason|c d|renditions]; simpl; try done.
  unfold mret, result_ret.
  destruct (first_allowed_rendition renditions) as [rend|] eqn:Hfirst; [|done].
  destruct (py_truthy (rend_id rend)) eqn:Hid; [|done]. intros [= <-].
  destruct (first_allowed_rendition_some _ _ Hfirst) as (pre & post & -> & Hpre & Hrend).
  exists pre, rend, post. repeat split; try done.
  unfold HTTP_ITEM_MEDIA_DETAILS_URL, HTTP_ITEM_MEDIA_LIST_URL.
  by rewrite !string_app_assoc.
Qed.

Lemma X8_media_link_comes_from_list_witness :
  exists pre rend post,
    media_endpoint (Scenario.media_upstream Scenario.example_renditions)
      {| req_url := HTTP_ITEM_MEDIA_LIST_URL (PInt 1) (PInt 7); req_params := None |}
    = Payload (pre ++ rend :: post)
    /\ py_truthy (rend_id rend) = true
    /\ "https://newsapi.anp.nl/services/sources/1/items/7/media/42"
       = HTTP_ITEM_MEDIA_DETAILS_URL (PInt 1) (PInt 7) (rend_id rend).
Proof.
  destruct (X8_media_link_comes_from_list
              (Scenario.media_upstream Scenario.example_renditions) (PInt 1) (PInt 7)
              "https://newsapi.anp.nl/services/sources/1/items/7/media/42" eq_refl)
    as (pre & rend & post & Hlist & _ & _ & Hid & Hlink & _).
  exists pre, rend, post. split; [exact Hlist|]. split; [exact Hid | exact Hlink].
Defined.

(** X9.  Whatever the detail fetcher returns is the document the detail
    endpoint served, but for the media link: id, media flag and all other
    fields are untouched, and the media link is either untouched or, for a
    document flagged as having media, the link the resolver returned.  A
    document not flagged keeps even a media link it came with. *)
Theorem X9_detail_fetch_keeps_document (w : upstream) (source_id item_id : pyval)
    (served fetched : item_details) :
  details_endpoint w {| req_url := HTTP_ITEM_DETAILS_URL source_id item_id;
                        req_params := None |} = Payload served ->
  _fetch_item_details w source_id item_id = Return fetched ->
  det_id fetched = det_id served
  /\ det_hasMedia fetched = det_hasMedia served
  /\ det_fields fetched = det_fields served
  /\ (fetched = served
      \/ (py_truthy (det_hasMedia served) = true
          /\ exists link,
               _fetch_media_link w source_id item_id = Return (Some link)
               /\ det_media_link fetched = Some link))
  /\ (py_truthy (det_hasMedia served) = false -> fetched = served).
Proof.
  intros Hserved. rewrite (_fetch_item_details_payload _ _ _ _ Hserved).
  destruct (py_truthy (det_hasMedia served)) eqn:Hflag.
  - destruct (_fetch_media_link w source_id item_id) as [e|[link|]] eqn:Hm; [done| |].
    + intros [= <-]. repeat split; try done. right. split; [done|]. by exists link.
    + intros [= <-]. repeat split; try done. by left.
  - intros [= <-]. repeat split; try done. by left.
Qed.

Lemma X9_detail_fetch_keeps_document_witness :
  det_id (set_media_link (Scenario.article_with_media 7)
            "https://newsapi.anp.nl/services/sources/1/items/7/media/42")
  = PInt 7.
Proof.
  exact (proj1 (X9_detail_fetch_keeps_document
                  (Scenario.item_7 (Scenario.article_with_media 7)
                     Scenario.example_renditions)
                  (PInt 1) (PInt 7) (Scenario.article_with_media 7)
                  (set_media_link (Scenario.article_with_media 7)
                     "https://newsapi.anp.nl/services/sources/1/items/7/media/42")
                  eq_refl eq_refl)).
Defined.

(** ** Runs that find nothing to resolve, and what entries name *)

(** X10.  Items of other kinds never move a checkpoint.  When every selected
    source lists only items whose kind is not [TEXTARTICLE] (or nothing, or
    when no source is selected at all), the run requests no detail, returns
    no item and leaves [update] exactly as it was given, so the same items
    are listed again by the next run. *)
Theorem X10_other_kinds_change_nothing
    (parsed : Type) (parse : item_details -> provider_doc -> result parsed)
    (w : upstream) (cfg : config) (provider update : provider_doc)
    (sources : list source) :
  _fetch_sources w cfg = Return sources ->
  (forall src, src ∈ sources ->
     exists listing,
       items_endpoint w
         {| req_url := HTTP_ITEMS_URL (src_id src);
            req_params := items_payload (stored_last_item_id provider (src_id src)) |}
       = Payload {| items := listing |}
       /\ Forall (fun item => item_kind item <> PStr "TEXTARTICLE") listing) ->
  _update parse w cfg provider update = (Return [[]], update)
  /\ forall details : request -> response item_details,
       _update parse
         {| sources_endpoint := sources_endpoint w;
            items_endpoint := items_endpoint w;
            details_endpoint := details;
            media_endpoint := media_endpoint w |} cfg provider update
       = (Return [[]], update).
Proof.
  intros Hs Hkinds.
  assert (forall details,
            _update parse
              {| sources_endpoint := sources_endpoint w;
                 items_endpoint := items_endpoint w;
                 details_endpoint := details;
                 media_endpoint := media_endpoint w |} cfg provider update
            = (Return [[]], update)) as Hany.
  { intros details. rewrite _update_run_progress. unfold run_progress.
    change (_fetch_sources _ cfg) with (_fetch_sources w cfg). rewrite Hs.
    rewrite resolve_sources_nothing_allowed; [done|].
    intros src Hin. destruct (Hkinds src Hin) as (listing & Hl & Hall).
    exists (reverse listing). split.
    - unfold _fetch_items, get_url. simpl. by rewrite Hl.
    - apply Forall_reverse in Hall.
      induction Hall as [|item l Hitem _ IH]; simpl; [done|].
      destruct (is_allowed_item item) eqn:Hallowed; [|done].
      by apply is_allowed_item_spec in Hallowed. }
  split; [|done]. specialize (Hany (details_endpoint w)). by destruct w.
Qed.

Lemma X10_other_kinds_change_nothing_witness :
  _update Scenario.parse_article Edge.photos_only Scenario.cfg
    Scenario.provider_at_100 Scenario.provider_at_100
  = (Return [[]], Scenario.provider_at_100).
Proof.
  refine (proj1 (X10_other_kinds_change_nothing _ Scenario.parse_article
                   Edge.photos_only Scenario.cfg Scenario.provider_at_100
                   Scenario.provider_at_100 [Scenario.anp_101] eq_refl _)).
  intros src _. eexists. split; [reflexivity|]. by repeat constructor.
Defined.

(** X11.  Every checkpoint entry found in [update] after a run is either
    the entry it came with, or names a selected source: it is filed under
    the key of that source, carries the title the catalog gave it, which in
    lower case is one of the configured titles, and holds the id of a detail
    fetched for an allowed item listed for that source. *)
Theorem X11_entries_name_selected_sources
    (parsed : Type) (parse : item_details -> provider_doc -> result parsed)
    (w : upstream) (cfg : config) (provider update : provider_doc)
    (k : pyval) (entry : source_entry) :
  doc_sources (_update parse w cfg provider update).2 !! k = Some entry ->
  doc_sources update !! k = Some entry
  \/ exists sources src listing item d,
       _fetch_sources w cfg = Return sources
       /\ src ∈ sources
       /\ py_hashkey (src_id src) = k
       /\ entry_title entry = src_title src
       /\ py_lower (entry_title entry) ∈ configured_titles cfg
       /\ _fetch_items w (src_id src) (stored_last_item_id provider (src_id src))
          = Return listing
       /\ item ∈ listing
       /\ item_kind item = PStr "TEXTARTICLE"
       /\ _fetch_item_details w (src_id src) (item_id item) = Return d
       /\ entry_last_item_id entry = det_id d.
Proof.
  rewrite _update_run_progress. simpl. rewrite apply_checkpoints_lookup.
  destruct (last _) as [[src d]|] eqn:Hlast; [|by left].
  intros [= <-]. right.
  apply last_Some_elem_of, list_elem_of_filter in Hlast as [Hk Hin].
  destruct (run_progress_resolved _ _ _ _ _ _ Hin)
    as (sources & listing & item & Hs & Hsrc & Hl & Hitem & Hkind & Hd).
  exists sources, src, listing, item, d. repeat split; try done.
  - revert Hs Hsrc. unfold _fetch_sources.
    destruct (get_url _ _ _) as [e|catalog]; simpl; [done|].
    unfold mret, result_ret. intros [= <-] [Hsel _]%list_elem_of_filter. exact Hsel.
  - by apply is_allowed_item_spec.
Qed.

Lemma X11_entries_name_selected_sources_witness :
  doc_sources Scenario.fresh_update !! PInt 1
  = Some {| entry_title := "ANP 101"; entry_last_item_id := PInt 103 |}
  \/ exists sources src listing item d,
       _fetch_sources Scenario.end_to_end Scenario.cfg = Return sources
       /\ src ∈ sources
       /\ py_hashkey (src_id src) = PInt 1
       /\ "ANP 101" = src_title src
       /\ py_lower "ANP 101" ∈ configured_titles Scenario.cfg
       /\ _fetch_items Scenario.end_to_end (src_id src)
            (stored_last_item_id Scenario.provider_at_100 (src_id src))
          = Return listing
       /\ item ∈ listing
       /\ item_kind item = PStr "TEXTARTICLE"
       /\ _fetch_item_details Scenario.end_to_end (src_id src) (item_id item) = Return d
       /\ PInt 103 = det_id d.
Proof.
  exact (X11_entries_name_selected_sources _ Scenario.parse_article
           Scenario.end_to_end Scenario.cfg Scenario.provider_at_100
           Scenario.fresh_update (PInt 1)
           {| entry_title := "ANP 101"; entry_last_item_id := PInt 103 |} eq_refl).
Defined.

(** ** When a run returns *)

Section ReturnFacts.
Context {parsed : Type}.
Variable parse : item_details -> provider_doc -> result parsed.
Variable w : upstream.


End ReturnFacts.



(** ** Where the checkpoint of a source ends *)

Lemma filter_allowed_none l :
  Forall (fun item => is_allowed_item item = false) l ->
  List.filter is_allowed_item l = [].
Proof. induction 1 as [|item l Hitem _ IH]; simpl; [done|]. by rewrite Hitem. Qed.

(** X13.  A source processed to its end has its checkpoint at the newest
    allowed item of the upstream listing: the first item of an allowed kind
    in the order the upstream returned (newest first), whatever newer items
    of other kinds stand before it. *)
Theorem X13_checkpoint_ends_at_newest_allowed
    (parsed : Type) (parse : item_details -> provider_doc -> result parsed)
    (w : upstream) (provider : provider_doc) (src : source)
    (newer : list item_ref) (item : item_ref) (older : list item_ref)
    (d : item_details) (fr fr' : frame parsed) :
  items_endpoint w
    {| req_url := HTTP_ITEMS_URL (src_id src);
       req_params := items_payload (stored_last_item_id provider (src_id src)) |}
    = Payload {| items := newer ++ item :: older |} ->
  Forall (fun i => is_allowed_item i = false) newer ->
  is_allowed_item item = true ->
  _fetch_item_details w (src_id src) (item_id item) = Return d ->
  process_source parse w provider src fr = (Return tt, fr') ->
  stored_last_item_id (fr_update fr') (src_id src) = det_id d.
Proof.
  intros Hlisting Hnewer Hitem Hd.
  unfold process_source, _fetch_items, get_url; run_M. rewrite Hlisting. simpl.
  rewrite reverse_app, reverse_cons, !List.filter_app.
  rewrite (filter_allowed_none (reverse newer)) by by apply Forall_reverse.
  simpl. rewrite Hitem, app_nil_r.
  intros (fr0 & _ & Hlast)%for_each_snoc_return.
  rewrite <- (process_item_checkpoint parse w provider src item d fr0 Hd).
  by rewrite Hlast.
Qed.

Lemma X13_checkpoint_ends_at_newest_allowed_witness :
  stored_last_item_id
    (fr_update
       (process_source Scenario.parse_article Scenario.end_to_end
          Scenario.provider_at_100 Scenario.anp_101
          {| fr_update := Scenario.fresh_update; fr_parsed_items := [] |}).2)
    (PInt 1)
  = PInt 103.
Proof.
  exact (X13_checkpoint_ends_at_newest_allowed _ Scenario.parse_article
           Scenario.end_to_end Scenario.provider_at_100 Scenario.anp_101
           [] {| item_id := PInt 103; item_kind := PStr "TEXTARTICLE" |}
           [ {| item_id := PInt 102; item_kind := PStr "PHOTO" |};
             {| item_id := PInt 101; item_kind := PStr "TEXTARTICLE" |} ]
           (Scenario.article 103)
           {| fr_update := Scenario.fresh_update; fr_parsed_items := [] |}
           _ eq_refl (Forall_nil_2 _) eq_refl eq_refl eq_refl).
Defined.
